(** * urbanspoon.core: reductions of gridded climate-model output

    A shallow embedding of [urbanspoon/core.py].  The module is a set of
    short functions over labelled arrays ([xr.DataArray]); this file embeds
    the functions together with the array primitives they call, and proves
    the properties the specification states about them.

    Arithmetic is the exact arithmetic of [R]: a float is read as the real
    it denotes, the missing-value marker as [NaN].  Rounding is not
    modelled. *)

From Stdlib Require Import Reals Lra Lia String Ascii ZArith Bool List Sorted.
Import ListNotations.

Local Open Scope R_scope.

(* ================================================================== *)
(** * Exceptions *)

(** The two exception classes the module can surface: [ValueError] is raised
    by [xr_collapse_across_space] itself and by the array library on a bad
    argument, [KeyError] by label lookup. *)
Inductive exn : Type :=
| ValueError (msg : string)
| KeyError (msg : string).

Inductive result (A : Type) : Type :=
| Ok (a : A)
| Raise (e : exn).

Arguments Ok {A} a.
Arguments Raise {A} e.

Definition bind {A B : Type} (m : result A) (f : A -> result B) : result B :=
  match m with
  | Ok a => f a
  | Raise e => Raise e
  end.

Notation "x <- m ;; k" := (bind m (fun x => k))
  (at level 61, m at next level, right associativity).

(* ================================================================== *)
(** * Array values *)

(** One entry of a float array: the missing marker or a finite number. *)
Inductive cell : Type :=
| NaN
| Num (x : R).

(** The outcome of a float division.  [x / 0] is an infinity when [x] is
    not zero and [NaN] when it is; the sign of the infinity depends on the
    sign of the zero, which exact arithmetic does not keep, so [QInf] stands
    for either. *)
Inductive quot : Type :=
| QNaN
| QInf
| QNum (x : R).

Definition isnull (c : cell) : bool :=
  match c with
  | NaN => true
  | Num _ => false
  end.

(** [a * b] on floats: a missing operand gives a missing product. *)
Definition cmul (a b : cell) : cell :=
  match a, b with
  | Num x, Num y => Num (x * y)
  | _, _ => NaN
  end.

(** [a / b] on floats. *)
Definition cdiv (a b : cell) : quot :=
  match a, b with
  | Num x, Num y =>
      if Req_dec_T y 0
      then (if Req_dec_T x 0 then QNaN else QInf)
      else QNum (x / y)
  | _, _ => QNaN
  end.

(** The non-missing entries of a sequence, in order. *)
Fixpoint skipna (l : list cell) : list R :=
  match l with
  | [] => []
  | NaN :: t => skipna t
  | Num x :: t => x :: skipna t
  end.

Fixpoint Rsum (l : list R) : R :=
  match l with
  | [] => 0
  | x :: t => x + Rsum t
  end.

(** [.sum()] of a float array skips missing entries ([skipna] is on by
    default for floats); over no entry at all it is [0]. *)
Definition nansum (l : list cell) : cell := Num (Rsum (skipna l)).

(** [.mean()] of a float array skips missing entries; over no entry at all
    it is missing. *)
Definition nanmean (l : list cell) : cell :=
  match skipna l with
  | [] => NaN
  | xs => Num (Rsum xs / INR (length xs))
  end.

(** [.count()]: the number of non-missing entries. *)
Definition nancount (l : list cell) : nat := length (skipna l).

(* ================================================================== *)
(** * Labelled arrays *)

(** A [DataArray] with the dimensions ['lat'] and ['lon'] and at most one
    more, the [outer] one (['time'], ['year']), given by its name and its
    coordinate labels.  [values a k i j] is the entry at the [k]-th outer
    label, the [i]-th latitude and the [j]-th longitude; an array without
    outer dimension only has [k = 0].  Dimensions are addressed by name
    throughout the module, so their order in memory is not modelled. *)
Record DataArray (L V : Type) : Type := mkDataArray {
  outer : option (string * list L);
  lat : list R;
  lon : list R;
  values : nat -> nat -> nat -> V
}.

Arguments mkDataArray {L V} outer lat lon values.
Arguments outer {L V} d.
Arguments lat {L V} d.
Arguments lon {L V} d.
Arguments values {L V} d k i j.

(** What is left of a [DataArray] once ['lat'] and ['lon'] are reduced or
    selected away: the outer dimension alone. *)
Record Reduced (L V : Type) : Type := mkReduced {
  r_outer : option (string * list L);
  r_values : nat -> V
}.

Arguments mkReduced {L V} r_outer r_values.
Arguments r_outer {L V} r.
Arguments r_values {L V} r k.

Definition outer_dims {L : Type} (o : option (string * list L)) : list string :=
  match o with
  | Some (name, _) => [name]
  | None => []
  end.

(** [da.dims] *)
Definition dims {L V : Type} (da : DataArray L V) : list string :=
  (outer_dims (outer da) ++ ["lat"; "lon"]%string)%list.

Definition r_dims {L V : Type} (r : Reduced L V) : list string :=
  outer_dims (r_outer r).

Definition nlat {L V : Type} (da : DataArray L V) : nat := length (lat da).
Definition nlon {L V : Type} (da : DataArray L V) : nat := length (lon da).

(** The entries of the [k]-th (lat, lon) slab, latitude by latitude. *)
Definition slab {L V : Type} (da : DataArray L V) (k : nat) : list V :=
  flat_map (fun i => map (fun j => values da k i j) (seq 0 (nlon da)))
           (seq 0 (nlat da)).

(** ** Array primitives used by [xr_collapse_across_space] *)

(** [np.cos(da["lat"] * np.pi / 180.0)]: a one-dimensional array over
    ['lat']. *)
Definition lat_weights {L V : Type} (da : DataArray L V) : list R :=
  map (fun l => cos (l * PI / 180)) (lat da).

(** [xr.DataArray(np.ones(da.shape), dims=da.dims, coords=da.coords)] *)
Definition ones_like {L V : Type} (da : DataArray L V) : DataArray L cell :=
  mkDataArray (outer da) (lat da) (lon da) (fun _ _ _ => Num 1).

(** [a * w] for [w] one-dimensional over ['lat']: [w] is broadcast along
    the other dimensions. *)
Definition mul_lat {L : Type} (a : DataArray L cell) (w : list R)
  : DataArray L cell :=
  mkDataArray (outer a) (lat a) (lon a)
    (fun k i j => cmul (values a k i j) (Num (nth i w 0))).

(** [da.isnull()] *)
Definition da_isnull {L : Type} (da : DataArray L cell) : DataArray L bool :=
  mkDataArray (outer da) (lat da) (lon da)
    (fun k i j => isnull (values da k i j)).

(** [~m] *)
Definition da_not {L : Type} (m : DataArray L bool) : DataArray L bool :=
  mkDataArray (outer m) (lat m) (lon m) (fun k i j => negb (values m k i j)).

(** [a.where(cond, other)]: [a] where [cond] holds, [other] elsewhere. *)
Definition da_where {L : Type} (a : DataArray L cell) (cond : DataArray L bool)
    (other : cell) : DataArray L cell :=
  mkDataArray (outer a) (lat a) (lon a)
    (fun k i j => if values cond k i j then values a k i j else other).

(** [a * b] for two arrays on the same coordinates. *)
Definition da_mul {L : Type} (a b : DataArray L cell) : DataArray L cell :=
  mkDataArray (outer a) (lat a) (lon a)
    (fun k i j => cmul (values a k i j) (values b k i j)).

(** [a.sum(dim=("lat", "lon"))] *)
Definition sum_lat_lon {L : Type} (a : DataArray L cell) : Reduced L cell :=
  mkReduced (outer a) (fun k => nansum (slab a k)).

(** [a / b] for two reduced arrays on the same coordinates. *)
Definition r_div {L : Type} (a b : Reduced L cell) : Reduced L quot :=
  mkReduced (r_outer a) (fun k => cdiv (r_values a k) (r_values b k)).

(* ================================================================== *)
(** * [xr_collapse_across_space] *)

Definition unknown_weighting_msg (weighting : string) : string :=
  (weighting ++ " is an unknown weighting scheme")%string.

Definition xr_collapse_across_space {L : Type} (da : DataArray L cell)
    (weighting : string) : result (Reduced L quot) :=
  if String.eqb weighting "GMST" then
    let lat_weights := lat_weights da in
    let ones := ones_like da in
    let weights := mul_lat ones lat_weights in
    let masked_weights := da_where weights (da_not (da_isnull da)) (Num 0) in
    let out :=
      r_div (sum_lat_lon (da_mul da masked_weights))
            (sum_lat_lon masked_weights) in
    Ok out
  else
    Raise (ValueError (unknown_weighting_msg weighting)).

(** The array the code names [masked_weights], on its own. *)
Definition masked_weights_of {L : Type} (da : DataArray L cell)
  : DataArray L cell :=
  da_where (mul_lat (ones_like da) (lat_weights da))
    (da_not (da_isnull da)) (Num 0).

(** The default of the [weighting] parameter. *)
Definition xr_collapse_across_space_default {L : Type} (da : DataArray L cell)
  : result (Reduced L quot) :=
  xr_collapse_across_space da "GMST".

(* ================================================================== *)
(** * Time axis *)

(** A timestamp of the time axis, at the resolution of a day. *)
Record datetime : Type := mkDatetime {
  year : Z;
  month : Z;
  day : Z
}.

(** A date written with reduced resolution, as the bounds of a time slice
    are: ["2020"], ["2020-07"], ["2020-07-15"]. *)
Inductive partial_date : Type :=
| Y (y : Z)
| YM (y m : Z)
| YMD (y m d : Z).

Definition digit_of (c : ascii) : option Z :=
  let n := Z.of_nat (nat_of_ascii c) in
  if ((48 <=? n) && (n <=? 57))%Z then Some (n - 48)%Z else None.

Fixpoint digits_acc (s : string) (acc : Z) : option Z :=
  match s with
  | EmptyString => Some acc
  | String c t =>
      match digit_of c with
      | Some d => digits_acc t (10 * acc + d)%Z
      | None => None
      end
  end.

Definition parse_number (s : string) : option Z :=
  match s with
  | EmptyString => None
  | _ => digits_acc s 0%Z
  end.

Fixpoint split_on (sep : ascii) (s : string) : list string :=
  match s with
  | EmptyString => [EmptyString]
  | String c t =>
      if Ascii.eqb c sep then EmptyString :: split_on sep t
      else match split_on sep t with
           | [] => [String c EmptyString]
           | h :: r => String c h :: r
           end
  end.

Definition dash : ascii := "-"%char.
Definition underscore : ascii := "_"%char.

(** The lengths of the months of the standard calendar, the one of the
    time index. *)
Definition is_leap (y : Z) : bool :=
  ((y mod 4 =? 0) && (negb (y mod 100 =? 0) || (y mod 400 =? 0)))%Z.

Definition days_in_month (y m : Z) : Z :=
  if (m =? 2)%Z then (if is_leap y then 29 else 28)%Z
  else if ((m =? 4) || (m =? 6) || (m =? 9) || (m =? 11))%Z then 30%Z
  else 31%Z.

(** A number written with exactly [n] digits. *)
Definition digits_n (n : nat) (s : string) : option Z :=
  if Nat.eqb (String.length s) n then parse_number s else None.

(** The years a time index of nanosecond resolution holds in full. *)
Definition year_ok (y : Z) : bool := ((1678 <=? y) && (y <=? 2261))%Z.

(** The date strings read here as slice bounds: the ISO forms ["YYYY"],
    ["YYYY-MM"] and ["YYYY-MM-DD"], with a month of the year and a day of
    the month.  The index reads other spellings too; they are left out,
    and the properties below are stated for bounds of these forms. *)
Definition parse_date (s : string) : option partial_date :=
  match split_on dash s with
  | [ys] =>
      match digits_n 4 ys with
      | Some y => if year_ok y then Some (Y y) else None
      | None => None
      end
  | [ys; ms] =>
      match digits_n 4 ys, digits_n 2 ms with
      | Some y, Some m =>
          if (year_ok y && (1 <=? m) && (m <=? 12))%Z
          then Some (YM y m) else None
      | _, _ => None
      end
  | [ys; ms; ds] =>
      match digits_n 4 ys, digits_n 2 ms, digits_n 2 ds with
      | Some y, Some m, Some d =>
          if (year_ok y && (1 <=? m) && (m <=? 12)
              && (1 <=? d) && (d <=? days_in_month y m))%Z
          then Some (YMD y m d) else None
      | _, _, _ => None
      end
  | _ => None
  end.

(** [t] is not before the first instant [p] stands for. *)
Definition on_or_after (p : partial_date) (t : datetime) : bool :=
  match p with
  | Y y => (y <=? year t)%Z
  | YM y m => ((y <? year t) || ((y =? year t) && (m <=? month t)))%Z
  | YMD y m d =>
      ((y <? year t)
       || ((y =? year t)
           && ((m <? month t) || ((m =? month t) && (d <=? day t)))))%Z
  end.

(** [t] is not after the last instant [p] stands for: a bound of reduced
    resolution covers its whole year or month. *)
Definition on_or_before (p : partial_date) (t : datetime) : bool :=
  match p with
  | Y y => (year t <=? y)%Z
  | YM y m => ((year t <? y) || ((year t =? y) && (month t <=? m)))%Z
  | YMD y m d =>
      ((year t <? y)
       || ((year t =? y)
           && ((month t <? m) || ((month t =? m) && (day t <=? d)))))%Z
  end.

Definition in_range (lo hi : partial_date) (t : datetime) : bool :=
  on_or_after lo t && on_or_before hi t.

(** The positions, counted from [k], of the labels that satisfy [p]. *)
Fixpoint positions_from {L : Type} (p : L -> bool) (k : nat) (labels : list L)
  : list nat :=
  match labels with
  | [] => []
  | l :: t =>
      if p l then k :: positions_from p (S k) t
      else positions_from p (S k) t
  end.

(** The labels of the ['time'] dimension; an array without one cannot be
    indexed, grouped or reduced along it. *)
Definition time_axis {V : Type} (da : DataArray datetime V)
  : result (list datetime) :=
  match outer da with
  | Some (name, ts) =>
      if String.eqb name "time" then Ok ts else Raise (KeyError "time")
  | None => Raise (KeyError "time")
  end.

(** The values of one grid cell at the given positions of the outer
    dimension. *)
Definition along {L V : Type} (da : DataArray L V) (ks : list nat)
    (i j : nat) : list V :=
  map (fun k => values da k i j) ks.

(** [t] is not after [u]. *)
Definition date_leb (t u : datetime) : bool :=
  ((year t <? year u)
   || ((year t =? year u)
       && ((month t <? month u)
           || ((month t =? month u) && (day t <=? day u)))))%Z.

(** The labels of the axis are in ascending order; equal neighbours are
    allowed. *)
Fixpoint ascending (ts : list datetime) : bool :=
  match ts with
  | [] => true
  | t :: rest =>
      match rest with
      | [] => true
      | u :: _ => date_leb t u && ascending rest
      end
  end.

(** [da.sel(time=slice(start, stop))]: label-based and inclusive at both
    ends.  On an axis in ascending order, as the time axis of model output
    is, it keeps the positions whose timestamp lies between the bounds,
    none when there is none; an axis whose labels are in no order cannot be
    sliced by labels and the lookup raises [KeyError].  The bounds are read
    first. *)
Definition sel_time_slice {V : Type} (da : DataArray datetime V)
    (start stop : string) : result (DataArray datetime V) :=
  ts <- time_axis da ;;
  match parse_date start, parse_date stop with
  | Some lo, Some hi =>
      if ascending ts then
        let kept := positions_from (in_range lo hi) 0 ts in
        Ok (mkDataArray (Some ("time"%string, filter (in_range lo hi) ts))
              (lat da) (lon da)
              (fun k i j => values da (nth k kept 0%nat) i j))
      else Raise (KeyError start)
  | None, _ => Raise (KeyError start)
  | _, None => Raise (KeyError stop)
  end.

(** [da.mean("time")]: the dimension is reduced away. *)
Definition mean_time (da : DataArray datetime cell)
  : result (DataArray datetime cell) :=
  ts <- time_axis da ;;
  Ok (mkDataArray None (lat da) (lon da)
        (fun _ i j => nanmean (along da (seq 0 (length ts)) i j))).

(* ================================================================== *)
(** * [xr_collapse_across_time] and [apply_xr_collapse_across_time] *)

Definition xr_collapse_across_time (da : DataArray datetime cell)
    (time_slice : string * string) : result (DataArray datetime cell) :=
  sel <- sel_time_slice da (fst time_slice) (snd time_slice) ;;
  mean_time sel.

(** The default of the [time_slice] parameter. *)
Definition default_time_slice : string * string := ("2080", "2100")%string.

(** ** Dictionaries

    A [dict] keeps its entries in insertion order; assigning to a key that
    is already bound replaces the value in place. *)
Section Dict.
Context {K V : Type}.
Variable eqb : K -> K -> bool.

Definition dict : Type := list (K * V).

Fixpoint dict_set (d : dict) (k : K) (v : V) : dict :=
  match d with
  | [] => [(k, v)]
  | (k', v') :: t =>
      if eqb k k' then (k, v) :: t else (k', v') :: dict_set t k v
  end.

Fixpoint dict_get (d : dict) (k : K) : option V :=
  match d with
  | [] => None
  | (k', v') :: t => if eqb k k' then Some v' else dict_get t k
  end.
End Dict.

(** [f"{sl[0]}_{sl[1]}"] *)
Definition slice_key (sl : string * string) : string :=
  (fst sl ++ "_" ++ snd sl)%string.

(** The body of the [for sl in slices] loop, with the dictionary built so
    far; an exception leaves the loop. *)
Fixpoint collapse_each (da : DataArray datetime cell)
    (slices : list (string * string))
    (results : dict (K := string) (V := DataArray datetime cell))
  : result (dict (K := string) (V := DataArray datetime cell)) :=
  match slices with
  | [] => Ok results
  | sl :: rest =>
      v <- xr_collapse_across_time da sl ;;
      collapse_each da rest (dict_set String.eqb results (slice_key sl) v)
  end.

Definition apply_xr_collapse_across_time (da : DataArray datetime cell)
    (slices : list (string * string))
  : result (dict (K := string) (V := DataArray datetime cell)) :=
  collapse_each da slices [].

(** The default of the [slices] parameter. *)
Definition default_slices : list (string * string) :=
  [("2020", "2040"); ("2040", "2060"); ("2060", "2080"); ("2080", "2100")]%string.

(** A call that leaves [slices] out. *)
Definition apply_xr_collapse_across_time_default (da : DataArray datetime cell)
  : result (dict (K := string) (V := DataArray datetime cell)) :=
  apply_xr_collapse_across_time da default_slices.

(* ================================================================== *)
(** * Grouping by calendar year *)

Fixpoint insert_uniq (y : Z) (l : list Z) : list Z :=
  match l with
  | [] => [y]
  | h :: t =>
      if (y <? h)%Z then y :: l
      else if (y =? h)%Z then l
      else h :: insert_uniq y t
  end.

(** The distinct values of [l], ascending. *)
Definition unique_sorted (l : list Z) : list Z := fold_right insert_uniq [] l.

(** [da.groupby("time.year")]: the array and, for each distinct year of its
    time axis in ascending order, the positions of the timestamps of that
    year. *)
Record GroupBy : Type := mkGroupBy {
  gb_obj : DataArray datetime cell;
  gb_groups : list (Z * list nat)
}.

Definition in_year (y : Z) (t : datetime) : bool := (year t =? y)%Z.

(** The library refuses to group an array along an empty axis. *)
Definition groupby_time_year (da : DataArray datetime cell) : result GroupBy :=
  ts <- time_axis da ;;
  match ts with
  | [] => Raise (ValueError "year must not be empty")
  | _ :: _ =>
      Ok (mkGroupBy da
            (map (fun y => (y, positions_from (in_year y) 0 ts))
                 (unique_sorted (map year ts))))
  end.

Definition group_positions (gb : GroupBy) (g : nat) : list nat :=
  nth g (map snd (gb_groups gb)) [].

(** [.mean()] of a grouped array: the mean over each group's timestamps,
    with ['year'] in place of ['time']. *)
Definition groupby_mean (gb : GroupBy) : DataArray Z cell :=
  mkDataArray (Some ("year"%string, map fst (gb_groups gb)))
    (lat (gb_obj gb)) (lon (gb_obj gb))
    (fun g i j => nanmean (along (gb_obj gb) (group_positions gb g) i j)).

(** [.count()] of a grouped array: the number of non-missing values among
    each group's timestamps. *)
Definition groupby_count (gb : GroupBy) : DataArray Z nat :=
  mkDataArray (Some ("year"%string, map fst (gb_groups gb)))
    (lat (gb_obj gb)) (lon (gb_obj gb))
    (fun g i j => nancount (along (gb_obj gb) (group_positions gb g) i j)).

(* ================================================================== *)
(** * [xr_average_across_days_of_year] *)

Definition xr_average_across_days_of_year (da : DataArray datetime cell)
  : result (DataArray Z cell) :=
  gb <- groupby_time_year da ;;
  Ok (groupby_mean gb).

(* ================================================================== *)
(** * [xr_collapse_to_global_time_series] *)

Definition xr_collapse_to_global_time_series (da : DataArray datetime cell)
  : result (Reduced Z quot) :=
  collapsed_across_days <- xr_average_across_days_of_year da ;;
  global_time_series <-
    xr_collapse_across_space_default collapsed_across_days ;;
  Ok global_time_series.

(* ================================================================== *)
(** * [xr_count_across_days_of_year] *)

Definition gtb (x y : R) : bool := if Rgt_dec x y then true else false.

(** [da > x]: a comparison with a missing value is false. *)
Definition da_gt {L : Type} (da : DataArray L cell) (x : R) : DataArray L bool :=
  mkDataArray (outer da) (lat da) (lon da)
    (fun k i j =>
       match values da k i j with
       | Num v => gtb v x
       | NaN => false
       end).

(** [a.rename({old: new})] on the outer dimension. *)
Definition rename {L V : Type} (a : DataArray L V) (old new : string)
  : result (DataArray L V) :=
  match outer a with
  | Some (name, labels) =>
      if String.eqb name old
      then Ok (mkDataArray (Some (new, labels)) (lat a) (lon a)
                 (fun k i j => values a k i j))
      else Raise (ValueError old)
  | None => Raise (ValueError old)
  end.

Definition xr_count_across_days_of_year (da : DataArray datetime cell)
    (count_above : R) : result (DataArray Z nat) :=
  gb <- groupby_time_year (da_where da (da_gt da count_above) NaN) ;;
  let da_count := groupby_count gb in
  da_count <- rename da_count "year" "time" ;;
  Ok da_count.

(** The default of the [count_above] parameter. *)
Definition default_count_above : R := 95.

(* ================================================================== *)
(** * [xr_quantiles_across_time_by_cell] *)

(** The position of the label [x] in an index, when it is one of its
    labels. *)
Fixpoint index_of (x : R) (labels : list R) : option nat :=
  match labels with
  | [] => None
  | l :: t =>
      if Req_dec_T x l then Some 0%nat
      else option_map S (index_of x t)
  end.

(** [da.sel(lat=y, lon=x, drop=True)]: the labels are looked up exactly;
    one that is not in the index is a [KeyError]. *)
Definition sel_lat_lon {L V : Type} (da : DataArray L V) (y x : R)
  : result (Reduced L V) :=
  match index_of y (lat da) with
  | None => Raise (KeyError "lat")
  | Some i =>
      match index_of x (lon da) with
      | None => Raise (KeyError "lon")
      | Some j => Ok (mkReduced (outer da) (fun k => values da k i j))
      end
  end.

Fixpoint insert_sorted (x : R) (l : list R) : list R :=
  match l with
  | [] => [x]
  | h :: t => if Rle_dec x h then x :: l else h :: insert_sorted x t
  end.

Definition sort (l : list R) : list R := fold_right insert_sorted [] l.

(** The [q]-quantile of a sample, by linear interpolation between the two
    nearest order statistics; missing values are left out, and the quantile
    of no value at all is missing. *)
Definition nanquantile (l : list cell) (q : R) : cell :=
  match sort (skipna l) with
  | [] => NaN
  | (x0 :: _) as xs =>
      let h := q * INR (length xs - 1) in
      let lo := Z.to_nat (Zfloor h) in
      let hi := Nat.min (S lo) (length xs - 1) in
      let a := nth lo xs x0 in
      let b := nth hi xs x0 in
      Num (a + (h - INR lo) * (b - a))
  end.

(** The [q] argument: one level, or a sequence of levels. *)
Inductive levels : Type :=
| Level (q : R)
| Levels (qs : list R).

Definition level_ok (q : R) : bool :=
  if Rle_dec 0 q then (if Rle_dec q 1 then true else false) else false.

Definition time_axis_of_reduced {V : Type} (s : Reduced datetime V)
  : result (list datetime) :=
  match r_outer s with
  | Some (name, ts) =>
      if String.eqb name "time" then Ok ts else Raise (ValueError "time")
  | None => Raise (ValueError "time")
  end.

(** [s.quantile(q=q, dim='time')] of a series: a sequence of levels gives
    a result along a new ['quantile'] dimension labelled by the levels, a
    single level a result without dimension.  Levels outside [0, 1] are
    refused. *)
Definition quantile_time (s : Reduced datetime cell) (q : levels)
  : result (Reduced R cell) :=
  ts <- time_axis_of_reduced s ;;
  let series := map (fun k => r_values s k) (seq 0 (length ts)) in
  match q with
  | Level q0 =>
      if level_ok q0
      then Ok (mkReduced None (fun _ => nanquantile series q0))
      else Raise (ValueError "Quantiles must be in the range [0, 1]")
  | Levels qs =>
      if forallb level_ok qs
      then Ok (mkReduced (Some ("quantile"%string, qs))
                 (fun n => nanquantile series (nth n qs 0)))
      else Raise (ValueError "Quantiles must be in the range [0, 1]")
  end.

Definition cell_eqb (c c' : R * R) : bool :=
  if Req_dec_T (fst c) (fst c')
  then (if Req_dec_T (snd c) (snd c') then true else false)
  else false.

Fixpoint quantiles_each (da : DataArray datetime cell) (q : levels)
    (cells : list (R * R))
    (results : dict (K := R * R) (V := Reduced R cell))
  : result (dict (K := R * R) (V := Reduced R cell)) :=
  match cells with
  | [] => Ok results
  | c :: rest =>
      s <- sel_lat_lon da (fst c) (snd c) ;;
      v <- quantile_time s q ;;
      quantiles_each da q rest (dict_set cell_eqb results c v)
  end.

Definition xr_quantiles_across_time_by_cell (da : DataArray datetime cell)
    (q : levels) (cells : list (R * R))
  : result (dict (K := R * R) (V := Reduced R cell)) :=
  quantiles_each da q cells [].

(* ================================================================== *)
(** * The weighted spatial mean, as the specification words it *)

(** The sum of [f i] over the positions [i < n] of an axis. *)
Definition sum_over (n : nat) (f : nat -> R) : R := Rsum (map f (seq 0 n)).

(** weight(lat) = cos(lat · π/180) *)
Definition spec_lat_weight (l : R) : R := cos (l * PI / 180).

(** The weight array: the latitude weight broadcast to the field's shape,
    and zero wherever the field value is missing. *)
Definition spec_weight {L : Type} (da : DataArray L cell) (k i j : nat) : R :=
  match values da k i j with
  | NaN => 0
  | Num _ => spec_lat_weight (nth i (lat da) 0)
  end.

(** One cell's share of sum(field · weight): nothing where the field is
    missing. *)
Definition spec_term {L : Type} (da : DataArray L cell) (k i j : nat) : R :=
  match values da k i j with
  | NaN => 0
  | Num x => x * spec_weight da k i j
  end.

Definition spec_numerator {L : Type} (da : DataArray L cell) (k : nat) : R :=
  sum_over (nlat da) (fun i => sum_over (nlon da) (fun j => spec_term da k i j)).

Definition spec_denominator {L : Type} (da : DataArray L cell) (k : nat) : R :=
  sum_over (nlat da) (fun i => sum_over (nlon da) (fun j => spec_weight da k i j)).

(** A missing entry read as 0. *)
Definition or_zero (c : cell) : R :=
  match c with
  | NaN => 0
  | Num x => x
  end.


(* ================================================================== *)
(** * Fixtures of the test suite *)

(** An array literal indexed as [x[a][b]]. *)
Definition of_rows (x : list (list R)) (a b : nat) : cell :=
  match nth_error (nth a x []) b with
  | Some v => Num v
  | None => NaN
  end.

(** [spatial_gcm_factory(x=[[1, 2], [3, 4]], lat=[1, 2], lon=[1, 2])]: the
    test weighs [x[a][b]] by the cosine of the [b]-th latitude, so the
    literal is indexed by longitude first. *)
Definition field_2x2 : DataArray datetime cell :=
  mkDataArray None [1; 2] [1; 2]
    (fun _ i j => of_rows [[1; 2]; [3; 4]] j i).

(** An array of one cell whose value is missing. *)
Definition field_missing : DataArray datetime cell :=
  mkDataArray None [0] [0] (fun _ _ _ => NaN).

(* ================================================================== *)
(** * The temporal reductions, as the specification words them *)

(** The labels of an axis, each with its position. *)
Definition enumerate {L : Type} (labels : list L) : list (nat * L) :=
  combine (seq 0 (length labels)) labels.

(** The values of the grid cell [(i, j)] at exactly the timestamps that
    satisfy [p], in the order of the axis. *)
Definition spec_values_where {V : Type} (p : datetime -> bool)
    (da : DataArray datetime V) (ts : list datetime) (i j : nat) : list V :=
  map (fun kt => values da (fst kt) i j)
      (filter (fun kt => p (snd kt)) (enumerate ts)).

(** The bounds of a range, compared as calendar dates. *)
Definition date_le (a b : Z * Z * Z) : Prop :=
  match a, b with
  | (y, m, d), (y', m', d') =>
      (y < y' \/ (y = y' /\ (m < m' \/ (m = m' /\ d <= d'))))%Z
  end.

Definition ymd (t : datetime) : Z * Z * Z := (year t, month t, day t).

(** The first and the last day a date of reduced resolution stands for; no
    month has more than 31 days, so 31 bounds the last day of any. *)
Definition first_day (p : partial_date) : Z * Z * Z :=
  match p with
  | Y y => (y, 1, 1)
  | YM y m => (y, m, 1)
  | YMD y m d => (y, m, d)
  end%Z.

Definition last_day (p : partial_date) : Z * Z * Z :=
  match p with
  | Y y => (y, 12, 31)
  | YM y m => (y, m, 31)
  | YMD y m d => (y, m, d)
  end%Z.

(** A timestamp with a month and a day of the calendar. *)
Definition calendar_date (t : datetime) : Prop :=
  (1 <= month t <= 12 /\ 1 <= day t <= 31)%Z.

(** ** The time axis of the test fixtures *)

Definition next_day (t : datetime) : datetime :=
  if (day t <? days_in_month (year t) (month t))%Z
  then mkDatetime (year t) (month t) (day t + 1)
  else if (month t <? 12)%Z
       then mkDatetime (year t) (month t + 1) 1
       else mkDatetime (year t + 1) 1 1.

Fixpoint date_range (start : datetime) (periods : nat) : list datetime :=
  match periods with
  | O => []
  | S n => start :: date_range (next_day start) n
  end.

(** The fixture [spatio_temporal_gcm_factory] of the test suite, for a
    series [x] on a grid of one cell ([lat = lon = np.ones(1)]).  The
    fixture lives in the suite's conftest, which is not among the sources;
    the test that passes it four values and takes the mean of the first two
    from the slice 1995-01-01 to 1995-01-02 fixes its time axis: daily, from
    1 January 1995. *)
Definition series_field (x : list R) : DataArray datetime cell :=
  mkDataArray
    (Some ("time"%string, date_range (mkDatetime 1995 1 1) (length x)))
    [1] [1]
    (fun k _ _ =>
       match nth_error x k with
       | Some v => Num v
       | None => NaN
       end).

(** Strings of digits, and strings without an underscore. *)
Fixpoint digits_only (s : string) : bool :=
  match s with
  | EmptyString => true
  | String c t =>
      match digit_of c with
      | Some _ => digits_only t
      | None => false
      end
  end.

Fixpoint no_underscore (s : string) : bool :=
  match s with
  | EmptyString => true
  | String c t => negb (Ascii.eqb c underscore) && no_underscore t
  end.

(** A field whose every value on the grid and along the time axis [ts] is
    [c]. *)
Definition constant_field (c : R) (da : DataArray datetime cell)
    (ts : list datetime) : Prop :=
  forall k i j, (k < length ts)%nat -> (i < nlat da)%nat -> (j < nlon da)%nat ->
    values da k i j = Num c.

(** A pair of slice bounds that both read as dates. *)
Definition dates (sl : string * string) : Prop :=
  parse_date (fst sl) <> None /\ parse_date (snd sl) <> None.

(** A field whose values on the grid and along the time axis [ts] are 1
    wherever they are not missing. *)
Definition ones_where_present (da : DataArray datetime cell)
    (ts : list datetime) : Prop :=
  forall k i j x,
    (k < length ts)%nat -> (i < nlat da)%nat -> (j < nlon da)%nat ->
    values da k i j = Num x -> x = 1.

(** A series of one day on a grid of one cell, its only value missing. *)
Definition series_missing : DataArray datetime cell :=
  mkDataArray (Some ("time"%string, [mkDatetime 1995 1 1])) [1] [1]
    (fun _ _ _ => NaN).

(** A value that counts as above the threshold: a number strictly greater
    than it. *)
Definition exceeds (threshold : R) (c : cell) : bool :=
  match c with
  | Num v => gtb v threshold
  | NaN => false
  end.

(** What [da.where(da > threshold)] leaves of a value. *)
Definition mask_above (threshold : R) (c : cell) : cell :=
  if exceeds threshold c then c else NaN.

(* ================================================================== *)
(** * Quantiles by cell, as the specification words them *)

(** Levels a quantile can be asked at. *)
Definition valid_levels (q : levels) : Prop :=
  match q with
  | Level q0 => 0 <= q0 <= 1
  | Levels qs => Forall (fun q0 => 0 <= q0 <= 1) qs
  end.

(** The time series of the grid cell [(i, j)]. *)
Definition cell_series (da : DataArray datetime cell) (ts : list datetime)
    (i j : nat) : list cell :=
  map (fun k => values da k i j) (seq 0 (length ts)).

(** [v] holds the requested quantiles of the sample [series]: along a
    ['quantile'] dimension labelled by the levels when a sequence of levels
    was asked for, without dimension when a single level was. *)
Definition quantiles_of (series : list cell) (q : levels)
    (v : Reduced R cell) : Prop :=
  match q with
  | Level q0 => r_dims v = [] /\ r_values v 0 = nanquantile series q0
  | Levels qs =>
      r_outer v = Some ("quantile"%string, qs)
      /\ forall n, (n < length qs)%nat ->
           r_values v n = nanquantile series (nth n qs 0)
  end.

(** The grid has a cell at the coordinates [c = (lat, lon)]. *)
Definition on_grid {L V : Type} (da : DataArray L V) (c : R * R) : Prop :=
  In (fst c) (lat da) /\ In (snd c) (lon da).

(** The fixture of the quantile test: the ramp 1, ..., 100 along time at
    each cell of the 2×2 grid of the latitudes -90, 90 and the longitudes
    -180, 180, on the daily axis of [series_field]. *)
Definition ramp_field : DataArray datetime cell :=
  mkDataArray
    (Some ("time"%string, date_range (mkDatetime 1995 1 1) 100))
    [-90; 90] [-180; 180]
    (fun k _ _ => Num (INR (S k))).

(* ================================================================== *)
(** * Further notions used to state properties of the reductions *)

(** One calendar date strictly before another. *)
Definition date_lt (a b : Z * Z * Z) : Prop :=
  match a, b with
  | (y, m, d), (y', m', d') =>
      (y < y' \/ (y = y' /\ (m < m' \/ (m = m' /\ d < d'))))%Z
  end.

(** Every value of the field that is not missing, on the grid and along the
    time axis [ts], lies in [[m, M]]. *)
Definition field_within (da : DataArray datetime cell) (ts : list datetime)
    (m M : R) : Prop :=
  forall k i j x,
    (k < length ts)%nat -> (i < nlat da)%nat -> (j < nlon da)%nat ->
    values da k i j = Num x -> m <= x <= M.


(** Three days across a new year on a grid of one cell, with the values 1,
    3 and 5. *)
Definition new_year_series : DataArray datetime cell :=
  mkDataArray
    (Some ("time"%string,
           [mkDatetime 1995 12 30; mkDatetime 1995 12 31; mkDatetime 1996 1 1]))
    [1] [1]
    (fun k _ _ => of_rows [[1]; [3]; [5]] k 0).




(* ================================================================== *)
(** * Plotting

    The two plotting functions only act on the figure they create.  The
    figure is modelled by the sequence of the drawing calls made on it, in
    order; a call that raises leaves the calls made before it in place. *)

(** Exceptions of the plotting functions. *)
Inductive plot_exn : Type :=
| PlotValueError
| PlotTypeError
| PlotIndexError
| PlotAttributeError
| PlotUnboundLocalError (name : string)
| PlotKeyError (key : string).

Inductive outcome (X : Type) : Type :=
| Done (x : X)
| Failed (e : plot_exn).

Arguments Done {X} x.
Arguments Failed {X} e.

(** The drawing calls, over the type [A] of the arrays drawn.  Axes are
    named by their position in the figure, the image of a map by the
    position of its axes. *)
Inductive draw (A : Type) : Type :=
| NewFigure (width height : R)
| PlotMap (ax : nat) (data : A) (vmin vmax : R)
| Coastlines (ax : nat)
| Borders (ax : nat)
| SetTitle (ax : nat) (title : string)
| Colorbar (image : nat) (axes : list nat) (label : string)
| PlotLine (label : string) (data : A) (linestyle color : string)
| Legend
| YLabel (label : string)
| Title (title : string).

Arguments NewFigure {A} width height.
Arguments PlotMap {A} ax data vmin vmax.
Arguments Coastlines {A} ax.
Arguments Borders {A} ax.
Arguments SetTitle {A} ax title.
Arguments Colorbar {A} image axes label.
Arguments PlotLine {A} label data linestyle color.
Arguments Legend {A}.
Arguments YLabel {A} label.
Arguments Title {A} title.

(** A computation that draws: from the calls made so far to the calls made
    after it, with its outcome. *)
Definition plotting (A X : Type) : Type :=
  list (draw A) -> list (draw A) * outcome X.

Definition ret {A X : Type} (x : X) : plotting A X := fun fig => (fig, Done x).

Definition fail {A X : Type} (e : plot_exn) : plotting A X :=
  fun fig => (fig, Failed e).

Definition emit {A : Type} (d : draw A) : plotting A unit :=
  fun fig => ((fig ++ [d])%list, Done tt).

Definition andthen {A X Y : Type} (m : plotting A X) (f : X -> plotting A Y)
  : plotting A Y :=
  fun fig =>
    match m fig with
    | (fig', Done x) => f x fig'
    | (fig', Failed e) => (fig', Failed e)
    end.

Notation "x <~ m ;; k" := (andthen m (fun x => k))
  (at level 61, m at next level, right associativity).
Notation "m ;;; k" := (andthen m (fun _ => k))
  (at level 61, right associativity).

(** What [plt.subplots(1, ncols)] returns for the axes: with the default
    [squeeze], the one [Axes] object itself when there is one column, an
    array of them when there are more. *)
Inductive axes_handle : Type :=
| OneAxes
| AxesArray (ncols : nat).

(** [figsize=(6.4 * 3, 4.8 * 3)] *)
Definition figsize : R * R := (6.4 * 3, 4.8 * 3).

(** [plt.subplots(1, ncols, figsize=..., subplot_kw=...)]: the figure is
    created, then the grid of axes; a grid of no column is refused. *)
Definition subplots {A : Type} (ncols : nat) : plotting A axes_handle :=
  emit (NewFigure (fst figsize) (snd figsize)) ;;;
  match ncols with
  | O => fail PlotValueError
  | S O => ret OneAxes
  | _ => ret (AxesArray ncols)
  end.

(** [axes[i]]: an [Axes] object cannot be subscripted. *)
Definition getitem {A : Type} (axes : axes_handle) (i : nat) : plotting A nat :=
  match axes with
  | OneAxes => fail PlotTypeError
  | AxesArray n => if (i <? n)%nat then ret i else fail PlotIndexError
  end.

(** [axes.ravel().tolist()] *)
Definition ravel_tolist {A : Type} (axes : axes_handle) : plotting A (list nat) :=
  match axes with
  | OneAxes => fail PlotAttributeError
  | AxesArray n => ret (seq 0 n)
  end.

(** ["{} {}".format(common_title, name)] *)
Definition map_title (common_title name : string) : string :=
  (common_title ++ " " ++ name)%string.

(** The [for name, subda in da.items()] loop of [plot_colored_maps], from
    the counter [i] and the image [im] of the map drawn last, if any. *)
Fixpoint maps_loop {A : Type} (axes : axes_handle) (items : list (string * A))
    (common_title : string) (color_bar_range : R * R)
    (i : nat) (im : option nat) : plotting A (option nat) :=
  match items with
  | [] => ret im
  | (name, subda) :: rest =>
      ax <~ getitem axes i ;;
      emit (PlotMap ax subda (fst color_bar_range) (snd color_bar_range)) ;;;
      ax1 <~ getitem axes i ;;
      emit (Coastlines ax1) ;;;
      ax2 <~ getitem axes i ;;
      emit (Borders ax2) ;;;
      ax3 <~ getitem axes i ;;
      emit (SetTitle ax3 (map_title common_title name)) ;;;
      maps_loop axes rest common_title color_bar_range (S i) (Some ax)
  end.

Definition plot_colored_maps {A : Type} (da : dict (K := string) (V := A))
    (common_title units : string) (color_bar_range : R * R)
  : plotting A unit :=
  axes <~ subplots (length da) ;;
  im <~ maps_loop axes da common_title color_bar_range 0 None ;;
  let cbar_title := units in
  match im with
  | None => fail (PlotUnboundLocalError "im")
  | Some image =>
      all_axes <~ ravel_tolist axes ;;
      emit (Colorbar image all_axes cbar_title)
  end.

(** An entry of the mapping [plot_colored_timeseries] takes: a dictionary
    read at the keys ['temporal_data'], ['linestyle'] and ['color'], each
    bound or not. *)
Record material (A : Type) : Type := mkMaterial {
  temporal_data : option A;
  linestyle : option string;
  color : option string
}.

Arguments mkMaterial {A} temporal_data linestyle color.
Arguments temporal_data {A} m.
Arguments linestyle {A} m.
Arguments color {A} m.

(** [material[key]] *)
Definition lookup {A X : Type} (key : string) (field : option X) : plotting A X :=
  match field with
  | Some x => ret x
  | None => fail (PlotKeyError key)
  end.

(** The [for name, material in da.items()] loop of
    [plot_colored_timeseries]. *)
Fixpoint lines_loop {A : Type} (items : list (string * material A))
  : plotting A unit :=
  match items with
  | [] => ret tt
  | (name, m) :: rest =>
      subda <~ lookup "temporal_data" (temporal_data m) ;;
      ls <~ lookup "linestyle" (linestyle m) ;;
      c <~ lookup "color" (color m) ;;
      emit (PlotLine name subda ls c) ;;;
      lines_loop rest
  end.

Definition plot_colored_timeseries {A : Type}
    (da : dict (K := string) (V := material A)) (title units : string)
  : plotting A unit :=
  emit (NewFigure (fst figsize) (snd figsize)) ;;;
  lines_loop da ;;;
  emit Legend ;;;
  emit (YLabel units) ;;;
  emit (Title title).

(** The calls one entry of [plot_colored_maps] makes on its axes. *)
Definition map_calls {A : Type} (common_title : string)
    (color_bar_range : R * R) (i : nat) (entry : string * A) : list (draw A) :=
  [PlotMap i (snd entry) (fst color_bar_range) (snd color_bar_range);
   Coastlines i; Borders i; SetTitle i (map_title common_title (fst entry))].

(** The calls of the entries of a list, the first one on the axes [i]. *)
Fixpoint maps_calls {A : Type} (common_title : string)
    (color_bar_range : R * R) (i : nat) (items : list (string * A))
  : list (draw A) :=
  match items with
  | [] => []
  | entry :: rest =>
      (map_calls common_title color_bar_range i entry
       ++ maps_calls common_title color_bar_range (S i) rest)%list
  end.

Definition is_map {A : Type} (d : draw A) : bool :=
  match d with
  | PlotMap _ _ _ _ => true
  | _ => false
  end.

Definition is_colorbar {A : Type} (d : draw A) : bool :=
  match d with
  | Colorbar _ _ _ => true
  | _ => false
  end.

Definition is_line {A : Type} (d : draw A) : bool :=
  match d with
  | PlotLine _ _ _ _ => true
  | _ => false
  end.

(** An entry with its three keys bound. *)
Definition complete {A : Type} (m : material A) : Prop :=
  temporal_data m <> None /\ linestyle m <> None /\ color m <> None.

(** The first key of an entry that is not bound, in the order the function
    reads them. *)
Definition first_missing {A : Type} (m : material A) : option string :=
  match temporal_data m, linestyle m, color m with
  | None, _, _ => Some "temporal_data"%string
  | Some _, None, _ => Some "linestyle"%string
  | Some _, Some _, None => Some "color"%string
  | Some _, Some _, Some _ => None
  end.

(** The line an entry with its three keys draws. *)
Definition line_of {A : Type} (entry : string * material A) : list (draw A) :=
  match temporal_data (snd entry), linestyle (snd entry), color (snd entry) with
  | Some d, Some ls, Some c => [PlotLine (fst entry) d ls c]
  | _, _, _ => []
  end.
(* ================================================================== *)
(** * Sums *)

Lemma Rsum_app (l1 l2 : list R) : Rsum (l1 ++ l2) = Rsum l1 + Rsum l2.
Proof.
  induction l1 as [|x l1 IH]; simpl.
  - lra.
  - rewrite IH. lra.
Qed.

Lemma Rsum_skipna (l : list cell) : Rsum (skipna l) = Rsum (map or_zero l).
Proof.
  induction l as [|[|x] l IH]; simpl.
  - reflexivity.
  - rewrite IH. lra.
  - rewrite IH. reflexivity.
Qed.

Lemma Rsum_flat_map {A : Type} (g : A -> list R) (l : list A) :
  Rsum (flat_map g l) = Rsum (map (fun a => Rsum (g a)) l).
Proof.
  induction l as [|a l IH]; simpl.
  - reflexivity.
  - rewrite Rsum_app, IH. reflexivity.
Qed.

Lemma map_flat_map {A B C : Type} (f : B -> C) (g : A -> list B) (l : list A) :
  map f (flat_map g l) = flat_map (fun a => map f (g a)) l.
Proof.
  induction l as [|a l IH]; simpl.
  - reflexivity.
  - rewrite map_app, IH. reflexivity.
Qed.

Lemma sum_over_ext (n : nat) (f g : nat -> R) :
  (forall i, (i < n)%nat -> f i = g i) -> sum_over n f = sum_over n g.
Proof.
  intros H. unfold sum_over. f_equal.
  apply map_ext_in. intros i Hi. apply in_seq in Hi. apply H. lia.
Qed.

Lemma Rsum_zero (l : list R) : (forall x, In x l -> x = 0) -> Rsum l = 0.
Proof.
  induction l as [|x l IH]; simpl; intros H.
  - reflexivity.
  - rewrite (H x) by (left; reflexivity).
    rewrite IH by (intros y Hy; apply H; right; exact Hy). lra.
Qed.

Lemma sum_over_zero (n : nat) (f : nat -> R) :
  (forall i, (i < n)%nat -> f i = 0) -> sum_over n f = 0.
Proof.
  intros H. unfold sum_over. apply Rsum_zero.
  intros x Hx. apply in_map_iff in Hx. destruct Hx as [i [<- Hi]].
  apply in_seq in Hi. apply H. lia.
Qed.

(** The sum of a slab, missing entries skipped, is the double sum of its
    entries over latitude and longitude with missing entries read as 0. *)
Lemma nansum_slab {L : Type} (a : DataArray L cell) (k : nat) :
  nansum (slab a k)
  = Num (sum_over (nlat a)
           (fun i => sum_over (nlon a) (fun j => or_zero (values a k i j)))).
Proof.
  unfold nansum, slab, sum_over. f_equal.
  rewrite Rsum_skipna, map_flat_map, Rsum_flat_map.
  f_equal. apply map_ext. intros i. rewrite map_map. reflexivity.
Qed.

(* ================================================================== *)
(** * Properties of [xr_collapse_across_space] *)

Lemma nth_lat_weights {L V : Type} (da : DataArray L V) (i : nat) :
  (i < nlat da)%nat ->
  nth i (lat_weights da) 0 = spec_lat_weight (nth i (lat da) 0).
Proof.
  intros Hi. unfold lat_weights, spec_lat_weight.
  rewrite (nth_indep _ 0 (cos (0 * PI / 180))).
  - apply (map_nth (fun l => cos (l * PI / 180))).
  - rewrite length_map. exact Hi.
Qed.

(** The masked weight array the code builds holds the specification's
    weights. *)
Lemma masked_weights_spec {L : Type} (da : DataArray L cell) (k i j : nat) :
  (i < nlat da)%nat ->
  values (da_where (mul_lat (ones_like da) (lat_weights da))
            (da_not (da_isnull da)) (Num 0)) k i j
  = Num (spec_weight da k i j).
Proof.
  intros Hi. unfold spec_weight. simpl.
  destruct (values da k i j) as [|x]; simpl.
  - reflexivity.
  - rewrite nth_lat_weights by exact Hi. f_equal. lra.
Qed.

(** What the GMST branch computes at each outer position. *)
Lemma collapse_gmst_values {L : Type} (da : DataArray L cell) :
  xr_collapse_across_space da "GMST"
  = Ok (mkReduced (outer da)
          (fun k => cdiv (nansum (slab (da_mul da
                            (da_where (mul_lat (ones_like da) (lat_weights da))
                               (da_not (da_isnull da)) (Num 0))) k))
                         (nansum (slab
                            (da_where (mul_lat (ones_like da) (lat_weights da))
                               (da_not (da_isnull da)) (Num 0)) k)))).
Proof. reflexivity. Qed.

Lemma collapse_gmst_ratio {L : Type} (da : DataArray L cell) :
  exists out,
    xr_collapse_across_space da "GMST" = Ok out
    /\ r_outer out = outer da
    /\ forall k,
         r_values out k
         = cdiv (Num (spec_numerator da k)) (Num (spec_denominator da k)).
Proof.
  rewrite collapse_gmst_values. eexists. split; [reflexivity|].
  split; [reflexivity|]. intros k. cbn [r_values].
  rewrite !nansum_slab. unfold spec_numerator, spec_denominator.
  f_equal; f_equal.
  - apply sum_over_ext. intros i Hi. apply sum_over_ext. intros j _.
    change (values (da_mul da ?m) k i j) with (cmul (values da k i j) (values m k i j)).
    rewrite masked_weights_spec by exact Hi.
    unfold spec_term. destruct (values da k i j); reflexivity.
  - apply sum_over_ext. intros i Hi. apply sum_over_ext. intros j _.
    rewrite masked_weights_spec by exact Hi. reflexivity.
Qed.

Lemma cdiv_nonzero (x y : R) : y <> 0 -> cdiv (Num x) (Num y) = QNum (x / y).
Proof.
  intros Hy. unfold cdiv. destruct (Req_dec_T y 0); [contradiction|reflexivity].
Qed.

Lemma cdiv_zero_zero : cdiv (Num 0) (Num 0) = QNaN.
Proof.
  unfold cdiv. destruct (Req_dec_T 0 0) as [_|H]; [reflexivity|].
  exfalso. apply H. reflexivity.
Qed.

(** The regression value of the test suite: the 2×2 field [[1,2],[3,4]]
    on the latitudes [1, 2] collapses to the weighted ratio worked out by
    hand. *)
Lemma collapse_across_space_2x2 :
  exists out,
    xr_collapse_across_space field_2x2 "GMST" = Ok out
    /\ r_dims out = []
    /\ r_values out 0
       = QNum ((1 * cos (1 * PI / 180) + 2 * cos (2 * PI / 180)
                + 3 * cos (1 * PI / 180) + 4 * cos (2 * PI / 180))
               / (cos (1 * PI / 180) * 2 + cos (2 * PI / 180) * 2)).
Proof.
  destruct (collapse_gmst_ratio field_2x2) as [out [Hout [Ho Hv]]].
  exists out. split; [exact Hout|]. split.
  - unfold r_dims. rewrite Ho. reflexivity.
  - rewrite Hv.
    assert (H1 : 0 < cos (1 * PI / 180))
      by (pose proof PI_RGT_0; apply cos_gt_0; lra).
    assert (H2 : 0 < cos (2 * PI / 180))
      by (pose proof PI_RGT_0; apply cos_gt_0; lra).
    replace (spec_numerator field_2x2 0)
      with (1 * cos (1 * PI / 180) + 2 * cos (2 * PI / 180)
            + 3 * cos (1 * PI / 180) + 4 * cos (2 * PI / 180))
      by (unfold spec_numerator, sum_over, spec_term, spec_weight,
            spec_lat_weight; simpl; lra).
    replace (spec_denominator field_2x2 0)
      with (cos (1 * PI / 180) * 2 + cos (2 * PI / 180) * 2)
      by (unfold spec_denominator, sum_over, spec_weight, spec_lat_weight;
          simpl; lra).
    apply cdiv_nonzero. lra.
Qed.

(** C1. With the weighting ["GMST"], [xr_collapse_across_space] returns, at
    every position of the dimensions it keeps, sum(field · weight) divided
    by sum(weight), both sums running over latitude and longitude, where
    weight is cos(lat · π/180) broadcast to the field's shape and set to
    zero at every cell whose field value is missing; a missing cell adds
    nothing to either sum.  Whenever the summed weight is not zero the
    result is that quotient as a number. *)
Theorem collapse_across_space_weighted_mean :
  forall (L : Type) (da : DataArray L cell),
  exists out,
    xr_collapse_across_space da "GMST" = Ok out
    /\ r_dims out = outer_dims (outer da)
    /\ forall k,
         r_values out k
         = cdiv (Num (spec_numerator da k)) (Num (spec_denominator da k))
         /\ (spec_denominator da k <> 0 ->
             r_values out k
             = QNum (spec_numerator da k / spec_denominator da k)).
Proof.
  intros L da.
  destruct (collapse_gmst_ratio da) as [out [Hout [Ho Hv]]].
  exists out. split; [exact Hout|]. split.
  - unfold r_dims. rewrite Ho. reflexivity.
  - intros k. split.
    + apply Hv.
    + intros Hd. rewrite Hv. apply cdiv_nonzero. exact Hd.
Qed.

Lemma prefix_append (s t : string) : String.prefix s (s ++ t) = true.
Proof.
  induction s as [|c s IH]; simpl.
  - destruct t; reflexivity.
  - destruct (ascii_dec c c) as [_|H]; [exact IH|].
    exfalso. apply H. reflexivity.
Qed.

(** C2. For every field and every weighting string other than ["GMST"],
    [xr_collapse_across_space] raises a [ValueError] whose message starts
    with the rejected weighting value; it returns no result, so no other
    scheme is applied in its place. *)
Theorem collapse_across_space_unknown_weighting :
  forall (L : Type) (da : DataArray L cell) (weighting : string),
    weighting <> "GMST"%string ->
    xr_collapse_across_space da weighting
    = Raise (ValueError (weighting ++ " is an unknown weighting scheme"))
    /\ String.prefix weighting
         (weighting ++ " is an unknown weighting scheme") = true
    /\ forall out, xr_collapse_across_space da weighting <> Ok out.
Proof.
  intros L da weighting Hw.
  assert (E : xr_collapse_across_space da weighting
              = Raise (ValueError (weighting ++ " is an unknown weighting scheme"))).
  { unfold xr_collapse_across_space.
    destruct (String.eqb weighting "GMST") eqn:Heq.
    - apply String.eqb_eq in Heq. contradiction.
    - reflexivity. }
  split; [exact E|]. split.
  - apply prefix_append.
  - intros out. rewrite E. discriminate.
Qed.

Lemma collapse_across_space_unknown_weighting_witness :
  "area"%string <> "GMST"%string
  /\ xr_collapse_across_space field_2x2 "area"
     = Raise (ValueError "area is an unknown weighting scheme").
Proof.
  split.
  - discriminate.
  - apply (collapse_across_space_unknown_weighting datetime field_2x2 "area").
    discriminate.
Defined.

Lemma collapse_across_space_weighted_mean_witness :
  exists out,
    xr_collapse_across_space field_2x2 "GMST" = Ok out
    /\ r_values out 0
       = QNum (spec_numerator field_2x2 0 / spec_denominator field_2x2 0).
Proof.
  destruct (collapse_across_space_weighted_mean datetime field_2x2)
    as [out [Hout [_ Hv]]].
  exists out. split; [exact Hout|].
  apply (proj2 (Hv 0%nat)).
  assert (H1 : 0 < cos (1 * PI / 180))
    by (pose proof PI_RGT_0; apply cos_gt_0; lra).
  assert (H2 : 0 < cos (2 * PI / 180))
    by (pose proof PI_RGT_0; apply cos_gt_0; lra).
  unfold spec_denominator, sum_over, spec_weight, spec_lat_weight.
  simpl. lra.
Defined.

Lemma spec_sums_vanish {L : Type} (da : DataArray L cell) (k : nat) :
  (forall i j, (i < nlat da)%nat -> (j < nlon da)%nat ->
     spec_weight da k i j = 0) ->
  spec_numerator da k = 0 /\ spec_denominator da k = 0.
Proof.
  intros H. unfold spec_numerator, spec_denominator. split.
  - apply sum_over_zero. intros i Hi. apply sum_over_zero. intros j Hj.
    unfold spec_term. destruct (values da k i j) as [|x]; [reflexivity|].
    rewrite (H i j Hi Hj). lra.
  - apply sum_over_zero. intros i Hi. apply sum_over_zero. intros j Hj.
    apply H; assumption.
Qed.

Lemma masked_sum_spec {L : Type} (da : DataArray L cell) (k : nat) :
  r_values (sum_lat_lon (masked_weights_of da)) k
  = Num (spec_denominator da k).
Proof.
  cbn [sum_lat_lon r_values]. rewrite nansum_slab.
  unfold spec_denominator. f_equal.
  apply sum_over_ext. intros i Hi. apply sum_over_ext. intros j _.
  unfold masked_weights_of. rewrite masked_weights_spec by exact Hi.
  reflexivity.
Qed.

(** C10. The division by the summed masked weights is not guarded: for a
    field whose every cell (of the slab at hand) is missing, the summed
    masked weights are 0 and [xr_collapse_across_space] returns the
    undefined value 0/0, NaN; it does not raise.  (No latitude has a weight
    that the floating-point cosine makes exactly zero, so a slab of zero
    weights is a slab of missing cells.) *)
Theorem collapse_across_space_zero_denominator :
  forall (L : Type) (da : DataArray L cell) (k : nat),
    (forall i j, (i < nlat da)%nat -> (j < nlon da)%nat ->
       values da k i j = NaN) ->
    exists out,
      xr_collapse_across_space da "GMST" = Ok out
      /\ r_values (sum_lat_lon (masked_weights_of da)) k = Num 0
      /\ r_values (sum_lat_lon (da_mul da (masked_weights_of da))) k = Num 0
      /\ r_values out k = QNaN.
Proof.
  intros L da k H.
  assert (Hw : forall i j, (i < nlat da)%nat -> (j < nlon da)%nat ->
                 spec_weight da k i j = 0).
  { intros i j Hi Hj. unfold spec_weight. rewrite (H i j Hi Hj). reflexivity. }
  destruct (spec_sums_vanish da k Hw) as [Hn Hd].
  destruct (collapse_gmst_ratio da) as [out [Hout [_ Hv]]].
  exists out. split; [exact Hout|]. split; [|split].
  - rewrite masked_sum_spec, Hd. reflexivity.
  - cbn [sum_lat_lon r_values]. rewrite nansum_slab. f_equal.
    apply sum_over_zero. intros i Hi. apply sum_over_zero. intros j Hj.
    cbn [da_mul values]. rewrite (H i j Hi Hj). reflexivity.
  - rewrite Hv, Hn, Hd. apply cdiv_zero_zero.
Qed.

Lemma collapse_across_space_zero_denominator_witness :
  (forall i j, (i < nlat field_missing)%nat -> (j < nlon field_missing)%nat ->
     values field_missing 0 i j = NaN)
  /\ exists out,
       xr_collapse_across_space field_missing "GMST" = Ok out
       /\ r_values out 0 = QNaN.
Proof.
  split.
  - intros i j _ _. reflexivity.
  - destruct (collapse_across_space_zero_denominator datetime field_missing 0%nat)
      as [out [Hout [_ [_ Hv]]]].
    + intros i j _ _. reflexivity.
    + exists out. split; assumption.
Defined.

(* ================================================================== *)
(** * Selection along the time axis *)

Lemma positions_from_combine {L : Type} (p : L -> bool) (k : nat)
    (labels : list L) :
  positions_from p k labels
  = map fst (filter (fun kt => p (snd kt))
               (combine (seq k (length labels)) labels)).
Proof.
  revert k. induction labels as [|l labels IH]; intros k; simpl.
  - reflexivity.
  - destruct (p l); simpl; rewrite IH; reflexivity.
Qed.

Lemma positions_from_length {L : Type} (p : L -> bool) (k : nat)
    (labels : list L) :
  length (positions_from p k labels) = length (filter p labels).
Proof.
  revert k. induction labels as [|l labels IH]; intros k; simpl.
  - reflexivity.
  - destruct (p l); simpl; rewrite IH; reflexivity.
Qed.

Lemma map_nth_seq {A B : Type} (f : A -> B) (l : list A) (d : A) :
  map (fun k => f (nth k l d)) (seq 0 (length l)) = map f l.
Proof.
  induction l as [|a l IH]; simpl.
  - reflexivity.
  - f_equal. rewrite <- seq_shift, map_map. exact IH.
Qed.

(** Reading an array through the kept positions visits the values at the
    selected timestamps. *)
Lemma along_positions {V : Type} (p : datetime -> bool)
    (da : DataArray datetime V) (ts : list datetime) (i j : nat) :
  along da (positions_from p 0 ts) i j = spec_values_where p da ts i j.
Proof.
  unfold along, spec_values_where, enumerate.
  rewrite positions_from_combine, map_map. reflexivity.
Qed.

Lemma time_axis_ok {V : Type} (da : DataArray datetime V) (ts : list datetime) :
  outer da = Some ("time"%string, ts) -> time_axis da = Ok ts.
Proof. intros H. unfold time_axis. rewrite H. reflexivity. Qed.

(** What [xr_collapse_across_time] returns when the bounds are dates. *)
Lemma collapse_across_time_values (da : DataArray datetime cell)
    (ts : list datetime) (start stop : string) (lo hi : partial_date) :
  outer da = Some ("time"%string, ts) ->
  ascending ts = true ->
  parse_date start = Some lo ->
  parse_date stop = Some hi ->
  exists out,
    xr_collapse_across_time da (start, stop) = Ok out
    /\ outer out = None
    /\ lat out = lat da
    /\ lon out = lon da
    /\ forall k i j,
         values out k i j
         = nanmean (spec_values_where (in_range lo hi) da ts i j).
Proof.
  intros Ht Hasc Hlo Hhi.
  unfold xr_collapse_across_time, sel_time_slice. cbn [fst snd].
  rewrite (time_axis_ok da ts Ht). cbn [bind]. rewrite Hlo, Hhi, Hasc.
  unfold mean_time, time_axis. cbn [outer bind String.eqb]. simpl String.eqb.
  cbn [bind lat lon].
  eexists. split; [reflexivity|]. cbn [outer lat lon values].
  repeat split. intros k i j.
  rewrite <- along_positions. f_equal. unfold along. cbn [values].
  rewrite <- positions_from_length with (k := 0%nat).
  apply (map_nth_seq (fun k' => values da k' i j)).
Qed.

(** Both ends of a range are inclusive, and an end of reduced resolution
    reaches to the last day of its year or month. *)
Lemma in_range_inclusive (lo hi : partial_date) (t : datetime) :
  calendar_date t ->
  in_range lo hi t = true
  <-> date_le (first_day lo) (ymd t) /\ date_le (ymd t) (last_day hi).
Proof.
  intros [Hm Hd]. unfold in_range, ymd. rewrite andb_true_iff.
  destruct lo, hi; cbn [on_or_after on_or_before first_day last_day date_le];
    rewrite ?orb_true_iff, ?andb_true_iff, ?orb_true_iff, ?andb_true_iff,
      ?Z.ltb_lt, ?Z.leb_le, ?Z.eqb_eq; lia.
Qed.

Lemma filter_none {A : Type} (p : A -> bool) (l : list A) :
  (forall a, In a l -> p a = false) -> filter p l = [].
Proof.
  induction l as [|a l IH]; simpl; intros H.
  - reflexivity.
  - rewrite (H a) by (left; reflexivity).
    apply IH. intros b Hb. apply H. right. exact Hb.
Qed.

Lemma spec_values_where_none {V : Type} (p : datetime -> bool)
    (da : DataArray datetime V) (ts : list datetime) (i j : nat) :
  (forall t, In t ts -> p t = false) -> spec_values_where p da ts i j = [].
Proof.
  intros H. unfold spec_values_where. rewrite filter_none; [reflexivity|].
  intros [k t] Hkt. apply in_combine_r in Hkt. apply H. exact Hkt.
Qed.

(** C5. For a field with a ['time'] dimension, its time axis in ascending
    order, and a pair of dates in ISO form, [xr_collapse_across_time]
    returns an array over ['lat'] and ['lon'] alone, the time axis being
    dropped, whose entry at each cell is the mean over exactly the
    timestamps of the inclusive range from the first day of the start date
    to the last day of the end date.  When no timestamp falls in the range
    it still returns, an array of missing entries. *)
Theorem collapse_across_time_range_mean :
  forall (da : DataArray datetime cell) (ts : list datetime)
         (start stop : string) (lo hi : partial_date),
    outer da = Some ("time"%string, ts) ->
    ascending ts = true ->
    parse_date start = Some lo ->
    parse_date stop = Some hi ->
    exists out,
      xr_collapse_across_time da (start, stop) = Ok out
      /\ dims out = ["lat"; "lon"]%string
      /\ (forall k i j,
            values out k i j
            = nanmean (spec_values_where (in_range lo hi) da ts i j))
      /\ (forall t, calendar_date t ->
            (in_range lo hi t = true
             <-> date_le (first_day lo) (ymd t)
                 /\ date_le (ymd t) (last_day hi)))
      /\ ((forall t, In t ts -> in_range lo hi t = false) ->
          forall k i j, values out k i j = NaN).
Proof.
  intros da ts start stop lo hi Ht Hasc Hlo Hhi.
  destruct (collapse_across_time_values da ts start stop lo hi Ht Hasc Hlo Hhi)
    as [out [Hout [Ho [_ [_ Hv]]]]].
  exists out. split; [exact Hout|]. split.
  { unfold dims. rewrite Ho. reflexivity. }
  split; [exact Hv|]. split.
  { intros t Hc. apply in_range_inclusive. exact Hc. }
  intros Hnone k i j. rewrite Hv, spec_values_where_none by exact Hnone.
  reflexivity.
Qed.

(** The test of the suite: the mean of [1, 2, 3, 4] over the first two days
    of 1995 is 1.5. *)
Lemma collapse_across_time_range_mean_witness :
  outer (series_field [1; 2; 3; 4])
  = Some ("time"%string, date_range (mkDatetime 1995 1 1) 4)
  /\ ascending (date_range (mkDatetime 1995 1 1) 4) = true
  /\ parse_date "1995-01-01" = Some (YMD 1995 1 1)
  /\ parse_date "1995-01-02" = Some (YMD 1995 1 2)
  /\ exists out,
       xr_collapse_across_time (series_field [1; 2; 3; 4])
         ("1995-01-01", "1995-01-02")%string = Ok out
       /\ dims out = ["lat"; "lon"]%string
       /\ values out 0 0 0 = Num (3 / 2).
Proof.
  split; [reflexivity|]. split; [reflexivity|].
  split; [reflexivity|]. split; [reflexivity|].
  destruct (collapse_across_time_range_mean (series_field [1; 2; 3; 4])
              (date_range (mkDatetime 1995 1 1) 4)
              "1995-01-01" "1995-01-02" (YMD 1995 1 1) (YMD 1995 1 2)
              eq_refl eq_refl eq_refl eq_refl)
    as [out [Hout [Hd [Hv _]]]].
  exists out. split; [exact Hout|]. split; [exact Hd|].
  rewrite Hv. unfold nanmean. simpl. f_equal. lra.
Defined.

(* ================================================================== *)
(** * Dictionaries *)

Section DictFacts.
Context {K V : Type}.
Variable eqb : K -> K -> bool.
Hypothesis eqb_spec : forall k k', eqb k k' = true <-> k = k'.

Lemma eqb_refl_true (k : K) : eqb k k = true.
Proof. apply eqb_spec. reflexivity. Qed.

Lemma eqb_neq_false (k k' : K) : k <> k' -> eqb k k' = false.
Proof.
  intros H. destruct (eqb k k') eqn:E; [|reflexivity].
  apply eqb_spec in E. contradiction.
Qed.

Lemma dict_get_set_same (d : dict (V := V)) (k : K) (v : V) :
  dict_get eqb (dict_set eqb d k v) k = Some v.
Proof.
  induction d as [|[k' v'] d IH]; simpl.
  - rewrite eqb_refl_true. reflexivity.
  - destruct (eqb k k') eqn:E; simpl.
    + rewrite eqb_refl_true. reflexivity.
    + rewrite E. exact IH.
Qed.

Lemma dict_get_set_other (d : dict (V := V)) (k k0 : K) (v : V) :
  k0 <> k ->
  dict_get eqb (dict_set eqb d k v) k0 = dict_get eqb d k0.
Proof.
  intros Hne. induction d as [|[k' v'] d IH]; simpl.
  - rewrite (eqb_neq_false k0 k Hne). reflexivity.
  - destruct (eqb k k') eqn:E; simpl.
    + apply eqb_spec in E. subst k'.
      rewrite (eqb_neq_false k0 k Hne). reflexivity.
    + destruct (eqb k0 k'); [reflexivity|exact IH].
Qed.
End DictFacts.

(* ================================================================== *)
(** * Date strings and slice keys *)

Lemma digit_not_underscore (c : ascii) (d : Z) :
  digit_of c = Some d -> Ascii.eqb c underscore = false.
Proof.
  intros H. destruct (Ascii.eqb c underscore) eqn:E; [|reflexivity].
  apply Ascii.eqb_eq in E. subst c. discriminate H.
Qed.

Lemma digits_acc_digits_only (s : string) (acc n : Z) :
  digits_acc s acc = Some n -> digits_only s = true.
Proof.
  revert acc. induction s as [|c s IH]; intros acc H; simpl in *.
  - reflexivity.
  - destruct (digit_of c); [|discriminate]. apply (IH _ H).
Qed.

Lemma parse_number_digits_only (s : string) (n : Z) :
  parse_number s = Some n -> digits_only s = true.
Proof.
  destruct s as [|c s]; [discriminate|].
  apply digits_acc_digits_only.
Qed.

Lemma digits_only_no_underscore (s : string) :
  digits_only s = true -> no_underscore s = true.
Proof.
  induction s as [|c s IH]; simpl; intros H.
  - reflexivity.
  - destruct (digit_of c) eqn:E; [|discriminate].
    rewrite (digit_not_underscore c z E). simpl. apply IH. exact H.
Qed.

Lemma split_on_not_nil (sep : ascii) (s : string) : split_on sep s <> [].
Proof.
  destruct s as [|c s]; simpl.
  - discriminate.
  - destruct (Ascii.eqb c sep); [discriminate|].
    destruct (split_on sep s); discriminate.
Qed.

(** A string cut at its dashes into strings of digits has no underscore. *)
Lemma dashed_digits_no_underscore (s : string) :
  Forall (fun x => digits_only x = true) (split_on dash s) ->
  no_underscore s = true.
Proof.
  induction s as [|c s IH]; simpl; intros H.
  - reflexivity.
  - destruct (Ascii.eqb c dash) eqn:E.
    + apply Ascii.eqb_eq in E. subst c. simpl.
      apply IH. inversion H; assumption.
    + pose proof (split_on_not_nil dash s) as Hne.
      destruct (split_on dash s) as [|h r]; [contradiction|].
      inversion H as [|x l Hx Hr]; subst. simpl in Hx.
      destruct (digit_of c) eqn:Ed; [|discriminate].
      rewrite (digit_not_underscore c z Ed). simpl.
      apply IH. constructor; assumption.
Qed.

Lemma digits_n_digits_only (n : nat) (s : string) (z : Z) :
  digits_n n s = Some z -> digits_only s = true.
Proof.
  unfold digits_n. destruct (Nat.eqb (String.length s) n); [|discriminate].
  apply parse_number_digits_only.
Qed.

Lemma parse_date_no_underscore (s : string) (p : partial_date) :
  parse_date s = Some p -> no_underscore s = true.
Proof.
  unfold parse_date. intros H. apply dashed_digits_no_underscore.
  destruct (split_on dash s) as [|a [|b [|c [|d l]]]];
    try discriminate;
    repeat match type of H with
           | context [digits_n ?n ?x] =>
               let E := fresh "E" in
               destruct (digits_n n x) eqn:E; try discriminate;
               apply digits_n_digits_only in E
           end;
    repeat constructor; assumption.
Qed.

(** The key of a slice determines the slice, as long as its start has no
    underscore. *)
Lemma slice_key_inj (a b a' b' : string) :
  no_underscore a = true -> no_underscore a' = true ->
  slice_key (a, b) = slice_key (a', b') -> a = a' /\ b = b'.
Proof.
  unfold slice_key. cbn [fst snd]. revert a'.
  induction a as [|c a IH]; intros [|c' a'] Ha Ha' H; simpl in *.
  - inversion H. split; reflexivity.
  - inversion H; subst c'. rewrite Ascii.eqb_refl in Ha'. discriminate.
  - inversion H; subst c. rewrite Ascii.eqb_refl in Ha. discriminate.
  - inversion H; subst c'.
    apply andb_true_iff in Ha. apply andb_true_iff in Ha'.
    destruct (IH a' (proj2 Ha) (proj2 Ha') H2) as [-> ->].
    split; reflexivity.
Qed.

(* ================================================================== *)
(** * Means of constant samples *)

Lemma in_skipna (x : R) (l : list cell) : In x (skipna l) <-> In (Num x) l.
Proof.
  induction l as [|[|y] l IH]; simpl.
  - tauto.
  - rewrite IH. split; [tauto|]. intros [H|H]; [discriminate|exact H].
  - rewrite IH. split; intros [H|H]; auto.
    + left. f_equal. exact H.
    + left. injection H. auto.
Qed.

Lemma Rsum_const (c : R) (l : list R) :
  (forall x, In x l -> x = c) -> Rsum l = INR (length l) * c.
Proof.
  induction l as [|x l IH]; intros H.
  - simpl. lra.
  - cbn [Rsum length]. rewrite S_INR.
    rewrite (H x) by (left; reflexivity).
    rewrite IH by (intros y Hy; apply H; right; exact Hy). lra.
Qed.

(** The mean of a sample whose non-missing values all equal [c] is [c], as
    soon as one value is not missing. *)
Lemma nanmean_const (c : R) (l : list cell) :
  skipna l <> [] ->
  (forall x, In (Num x) l -> x = c) ->
  nanmean l = Num c.
Proof.
  intros Hne Hc. unfold nanmean.
  assert (Hs : Rsum (skipna l) = INR (length (skipna l)) * c).
  { apply Rsum_const. intros x Hx. apply Hc. apply in_skipna. exact Hx. }
  destruct (skipna l) as [|x xs] eqn:E; [contradiction|].
  f_equal. rewrite Hs. field. apply not_0_INR. discriminate.
Qed.

Lemma nanmean_all_missing (l : list cell) : skipna l = [] -> nanmean l = NaN.
Proof. intros H. unfold nanmean. rewrite H. reflexivity. Qed.

Lemma skipna_not_nil (x : R) (l : list cell) : In (Num x) l -> skipna l <> [].
Proof.
  intros H E. apply in_skipna in H. rewrite E in H. exact H.
Qed.

Lemma in_enumerate {L : Type} (s : nat) (labels : list L) (t : L) :
  In t labels -> exists k, In (k, t) (combine (seq s (length labels)) labels).
Proof.
  revert s. induction labels as [|l labels IH]; intros s H; simpl in *.
  - contradiction.
  - destruct H as [->|H].
    + exists s. left. reflexivity.
    + destruct (IH (S s) H) as [k Hk]. exists k. right. exact Hk.
Qed.

Lemma in_spec_values_where {V : Type} (p : datetime -> bool)
    (da : DataArray datetime V) (ts : list datetime) (i j : nat) (x : V) :
  In x (spec_values_where p da ts i j) ->
  exists k, (k < length ts)%nat /\ x = values da k i j.
Proof.
  unfold spec_values_where, enumerate. intros H.
  apply in_map_iff in H. destruct H as [[k t] [<- H]].
  apply filter_In in H. destruct H as [H _].
  apply in_combine_l in H. apply in_seq in H.
  exists k. split; [lia|reflexivity].
Qed.

Lemma spec_values_where_some {V : Type} (p : datetime -> bool)
    (da : DataArray datetime V) (ts : list datetime) (i j : nat) (t : datetime) :
  In t ts -> p t = true ->
  exists k, In (values da k i j) (spec_values_where p da ts i j).
Proof.
  intros Ht Hp. destruct (in_enumerate 0 ts t Ht) as [k Hk].
  exists k. unfold spec_values_where, enumerate.
  apply in_map_iff. exists (k, t). split; [reflexivity|].
  apply filter_In. split; [exact Hk|exact Hp].
Qed.

(** Over a constant field, the mean over any selection that keeps a
    timestamp is the constant. *)
Lemma nanmean_constant_field (c : R) (p : datetime -> bool)
    (da : DataArray datetime cell) (ts : list datetime) (i j : nat) :
  constant_field c da ts ->
  (i < nlat da)%nat -> (j < nlon da)%nat ->
  (exists t, In t ts /\ p t = true) ->
  nanmean (spec_values_where p da ts i j) = Num c.
Proof.
  intros Hc Hi Hj [t [Ht Hp]].
  apply nanmean_const.
  - destruct (spec_values_where_some p da ts i j t Ht Hp) as [k Hk].
    destruct (in_spec_values_where p da ts i j _ Hk) as [k' [Hk' E]].
    rewrite E, (Hc k' i j Hk' Hi Hj) in Hk.
    apply (skipna_not_nil c). exact Hk.
  - intros x Hx.
    destruct (in_spec_values_where p da ts i j _ Hx) as [k [Hk E]].
    rewrite (Hc k i j Hk Hi Hj) in E. injection E. auto.
Qed.

(* ================================================================== *)
(** * Properties of [apply_xr_collapse_across_time] *)

Lemma collapse_across_time_returns (da : DataArray datetime cell)
    (ts : list datetime) (sl : string * string) :
  outer da = Some ("time"%string, ts) -> ascending ts = true -> dates sl ->
  exists v, xr_collapse_across_time da sl = Ok v.
Proof.
  intros Ht Hasc [Hlo Hhi]. destruct sl as [a b]. cbn [fst snd] in *.
  destruct (parse_date a) as [lo|] eqn:Ea; [|contradiction].
  destruct (parse_date b) as [hi|] eqn:Eb; [|contradiction].
  destruct (collapse_across_time_values da ts a b lo hi Ht Hasc Ea Eb)
    as [v [Hv _]].
  exists v. exact Hv.
Qed.

(** A slice [xr_collapse_across_time] reduces has bounds that read as
    dates. *)
Lemma collapse_across_time_ok_dates (da : DataArray datetime cell)
    (sl : string * string) (v : DataArray datetime cell) :
  xr_collapse_across_time da sl = Ok v -> dates sl.
Proof.
  unfold xr_collapse_across_time, sel_time_slice, dates.
  destruct (time_axis da) as [ts|e]; cbn [bind]; [|discriminate].
  destruct (parse_date (fst sl)); [|discriminate].
  destruct (parse_date (snd sl)); [|discriminate].
  intros _. split; discriminate.
Qed.

Lemma dates_key_inj (sl sl' : string * string) :
  dates sl -> dates sl' -> slice_key sl = slice_key sl' -> sl = sl'.
Proof.
  intros [Ha _] [Ha' _] H. destruct sl as [a b], sl' as [a' b'].
  cbn [fst snd] in *.
  destruct (parse_date a) as [p|] eqn:Ea; [|contradiction].
  destruct (parse_date a') as [p'|] eqn:Ea'; [|contradiction].
  destruct (slice_key_inj a b a' b'
              (parse_date_no_underscore a p Ea)
              (parse_date_no_underscore a' p' Ea') H) as [-> ->].
  reflexivity.
Qed.

(** The loop binds the key of every slice it goes through to the collapse
    over that slice, and leaves the other keys as they were. *)
Lemma collapse_each_spec (da : DataArray datetime cell)
    (slices : list (string * string)) :
  (forall sl, In sl slices -> exists v, xr_collapse_across_time da sl = Ok v) ->
  forall results,
  exists final,
    collapse_each da slices results = Ok final
    /\ (forall sl, In sl slices ->
          exists v, xr_collapse_across_time da sl = Ok v
                    /\ dict_get String.eqb final (slice_key sl) = Some v)
    /\ (forall k, ~ In k (map slice_key slices) ->
          dict_get String.eqb final k = dict_get String.eqb results k).
Proof.
  induction slices as [|sl rest IH]; intros Hd results.
  - exists results. split; [reflexivity|]. split.
    + intros sl [].
    + intros k _. reflexivity.
  - destruct (Hd sl (or_introl eq_refl)) as [v Hv].
    destruct (IH (fun s Hs => Hd s (or_intror Hs))
                 (dict_set String.eqb results (slice_key sl) v))
      as [final [Hfin [Hin Hout]]].
    exists final. split.
    { cbn [collapse_each]. rewrite Hv. exact Hfin. }
    split.
    + intros sl' [<-|Hsl']; [|apply Hin; exact Hsl'].
      destruct (in_dec string_dec (slice_key sl) (map slice_key rest))
        as [Hk|Hk].
      * apply in_map_iff in Hk. destruct Hk as [sl' [Hkey Hsl']].
        assert (sl' = sl) as ->.
        { destruct (Hd sl' (or_intror Hsl')) as [v' Hv'].
          apply dates_key_inj;
            [exact (collapse_across_time_ok_dates da sl' v' Hv')
            |exact (collapse_across_time_ok_dates da sl v Hv)|exact Hkey]. }
        apply Hin. exact Hsl'.
      * exists v. split; [exact Hv|].
        rewrite (Hout _ Hk). apply dict_get_set_same. apply String.eqb_eq.
    + intros k Hk. simpl in Hk.
      rewrite Hout by tauto.
      apply dict_get_set_other; [apply String.eqb_eq|].
      intros E. apply Hk. left. symmetry. exact E.
Qed.

(** C6. For a field and a list of pairs on each of which
    [xr_collapse_across_time] returns, [apply_xr_collapse_across_time]
    returns a dictionary that binds, for each pair of the list, the key
    ["<start>_<end>"] to [xr_collapse_across_time] of the field over that
    pair.  Left out, the list is 2020–2040, 2040–2060, 2060–2080,
    2080–2100.  For a field of ones on a time axis in ascending order, with
    a timestamp in 1995–1996 and one in 1996–1997, the keys ["1995_1996"]
    and ["1996_1997"] are both bound, each to an array of ones. *)
Theorem apply_collapse_across_time_mapping :
  (forall (da : DataArray datetime cell) (slices : list (string * string)),
     (forall sl, In sl slices ->
        exists v, xr_collapse_across_time da sl = Ok v) ->
     exists results,
       apply_xr_collapse_across_time da slices = Ok results
       /\ forall start stop, In (start, stop) slices ->
            exists v,
              xr_collapse_across_time da (start, stop) = Ok v
              /\ dict_get String.eqb results (start ++ "_" ++ stop)%string
                 = Some v)
  /\ (forall da : DataArray datetime cell,
        apply_xr_collapse_across_time_default da
        = apply_xr_collapse_across_time da
            [("2020", "2040"); ("2040", "2060");
             ("2060", "2080"); ("2080", "2100")]%string)
  /\ (forall (da : DataArray datetime cell) (ts : list datetime),
        outer da = Some ("time"%string, ts) ->
        ascending ts = true ->
        constant_field 1 da ts ->
        (exists t, In t ts /\ in_range (Y 1995) (Y 1996) t = true) ->
        (exists t, In t ts /\ in_range (Y 1996) (Y 1997) t = true) ->
        exists results v1 v2,
          apply_xr_collapse_across_time da
            [("1995", "1996"); ("1996", "1997")]%string = Ok results
          /\ dict_get String.eqb results "1995_1996"%string = Some v1
          /\ dict_get String.eqb results "1996_1997"%string = Some v2
          /\ forall k i j, (i < nlat da)%nat -> (j < nlon da)%nat ->
               values v1 k i j = Num 1 /\ values v2 k i j = Num 1).
Proof.
  split; [|split].
  - intros da slices Hd.
    destruct (collapse_each_spec da slices Hd []) as [final [Hf [Hin _]]].
    exists final. split; [exact Hf|].
    intros start stop Hs. apply (Hin (start, stop) Hs).
  - intros da. reflexivity.
  - intros da ts Ht Hasc Hc H1 H2.
    destruct (collapse_across_time_values da ts "1995" "1996"
                (Y 1995) (Y 1996) Ht Hasc eq_refl eq_refl)
      as [w1 [Hw1 [_ [_ [_ Hval1]]]]].
    destruct (collapse_across_time_values da ts "1996" "1997"
                (Y 1996) (Y 1997) Ht Hasc eq_refl eq_refl)
      as [w2 [Hw2 [_ [_ [_ Hval2]]]]].
    assert (Hd : forall sl,
               In sl [("1995", "1996"); ("1996", "1997")]%string ->
               exists v, xr_collapse_across_time da sl = Ok v).
    { intros sl [<-|[<-|[]]]; eexists; eassumption. }
    destruct (collapse_each_spec da _ Hd []) as [final [Hf [Hin _]]].
    destruct (Hin ("1995", "1996")%string (or_introl eq_refl))
      as [v1 [Hv1 Hg1]].
    destruct (Hin ("1996", "1997")%string (or_intror (or_introl eq_refl)))
      as [v2 [Hv2 Hg2]].
    exists final, v1, v2. split; [exact Hf|].
    split; [exact Hg1|]. split; [exact Hg2|].
    intros k i j Hi Hj.
    rewrite Hv1 in Hw1. injection Hw1 as <-.
    rewrite Hv2 in Hw2. injection Hw2 as <-.
    rewrite Hval1, Hval2. split.
    + apply nanmean_constant_field; assumption.
    + apply nanmean_constant_field; assumption.
Qed.

Lemma nth_error_repeat {A : Type} (a : A) (n k : nat) :
  (k < n)%nat -> nth_error (repeat a n) k = Some a.
Proof.
  revert k. induction n as [|n IH]; intros k Hk; [lia|].
  destruct k as [|k]; simpl; [reflexivity|]. apply IH. lia.
Qed.

Lemma series_field_constant (c : R) (n : nat) :
  constant_field c (series_field (repeat c n))
    (date_range (mkDatetime 1995 1 1) n).
Proof.
  intros k i j Hk _ _. cbn [series_field values].
  rewrite nth_error_repeat; [reflexivity|].
  revert Hk. generalize (mkDatetime 1995 1 1). clear.
  revert k. induction n as [|n IH]; intros k d Hk; simpl in Hk; [lia|].
  destruct k; [lia|]. specialize (IH k (next_day d)). lia.
Qed.

Lemma date_range_length (d : datetime) (n : nat) :
  length (date_range d n) = n.
Proof.
  revert d. induction n as [|n IH]; intros d; simpl; [reflexivity|].
  rewrite IH. reflexivity.
Qed.

(** The test of the suite: 720 daily samples of 1 from 1 January 1995, cut
    into 1995–1996 and 1996–1997. *)
Lemma apply_collapse_across_time_mapping_witness :
  exists results v1 v2,
    apply_xr_collapse_across_time (series_field (repeat 1 720))
      [("1995", "1996"); ("1996", "1997")]%string = Ok results
    /\ dict_get String.eqb results "1995_1996"%string = Some v1
    /\ dict_get String.eqb results "1996_1997"%string = Some v2
    /\ values v1 0 0 0 = Num 1
    /\ values v2 0 0 0 = Num 1.
Proof.
  destruct apply_collapse_across_time_mapping as [_ [_ H]].
  destruct (H (series_field (repeat 1 720))
              (date_range (mkDatetime 1995 1 1) 720)) as
    [results [v1 [v2 [Hr [H1 [H2 Hv]]]]]].
  - cbn [series_field outer]. rewrite repeat_length. reflexivity.
  - vm_compute. reflexivity.
  - apply series_field_constant.
  - exists (mkDatetime 1995 1 1). split; [left; reflexivity|reflexivity].
  - apply existsb_exists. vm_compute. reflexivity.
  - exists results, v1, v2.
    split; [exact Hr|]. split; [exact H1|]. split; [exact H2|].
    apply Hv; cbn; lia.
Defined.

(* ================================================================== *)
(** * Grouping by year *)

Lemma insert_uniq_In (x y : Z) (l : list Z) :
  In x (insert_uniq y l) <-> x = y \/ In x l.
Proof.
  induction l as [|h t IH]; simpl.
  - intuition.
  - destruct (y <? h)%Z eqn:E1; simpl.
    + intuition.
    + destruct (y =? h)%Z eqn:E2; simpl.
      * apply Z.eqb_eq in E2. subst h. intuition.
      * rewrite IH. intuition.
Qed.

Lemma unique_sorted_In (x : Z) (l : list Z) :
  In x (unique_sorted l) <-> In x l.
Proof.
  induction l as [|h t IH]; simpl.
  - tauto.
  - rewrite insert_uniq_In, IH. intuition.
Qed.

Lemma insert_uniq_sorted (y : Z) (l : list Z) :
  StronglySorted Z.lt l -> StronglySorted Z.lt (insert_uniq y l).
Proof.
  induction l as [|h t IH]; intros Hs; simpl.
  - constructor; constructor.
  - inversion Hs as [|a l' Ht Hh]; subst.
    destruct (y <? h)%Z eqn:E1.
    + apply Z.ltb_lt in E1. constructor; [exact Hs|].
      constructor; [exact E1|].
      rewrite Forall_forall in *. intros z Hz. specialize (Hh z Hz). lia.
    + destruct (y =? h)%Z eqn:E2; [exact Hs|].
      apply Z.ltb_ge in E1. apply Z.eqb_neq in E2.
      constructor; [apply IH; exact Ht|].
      rewrite Forall_forall in *. intros z Hz.
      apply insert_uniq_In in Hz. destruct Hz as [->|Hz]; [lia|].
      apply Hh. exact Hz.
Qed.

Lemma unique_sorted_sorted (l : list Z) : StronglySorted Z.lt (unique_sorted l).
Proof.
  induction l as [|h t IH]; simpl.
  - constructor.
  - apply insert_uniq_sorted. exact IH.
Qed.

Lemma nth_map_lt {A B : Type} (f : A -> B) (l : list A) (g : nat) (d : B) (d' : A) :
  (g < length l)%nat -> nth g (map f l) d = f (nth g l d').
Proof.
  intros H. rewrite (nth_indep _ d (f d')) by (rewrite length_map; exact H).
  apply map_nth.
Qed.

(** The groups of a field with a non-empty time axis. *)
Lemma groupby_time_year_groups (da : DataArray datetime cell)
    (t0 : datetime) (ts : list datetime) :
  outer da = Some ("time"%string, t0 :: ts) ->
  groupby_time_year da
  = Ok (mkGroupBy da
          (map (fun y => (y, positions_from (in_year y) 0 (t0 :: ts)))
               (unique_sorted (map year (t0 :: ts))))).
Proof.
  intros Ht. unfold groupby_time_year.
  rewrite (time_axis_ok da _ Ht). reflexivity.
Qed.

Lemma group_positions_nth (da : DataArray datetime cell)
    (ts : list datetime) (years : list Z) (g : nat) :
  (g < length years)%nat ->
  group_positions
    (mkGroupBy da (map (fun y => (y, positions_from (in_year y) 0 ts)) years)) g
  = positions_from (in_year (nth g years 0%Z)) 0 ts.
Proof.
  intros Hg. unfold group_positions. cbn [gb_groups].
  rewrite map_map. cbn [snd].
  apply (nth_map_lt (fun y => positions_from (in_year y) 0 ts)). exact Hg.
Qed.

Lemma group_labels (ts : list datetime) (years : list Z) :
  map fst (map (fun y => (y, positions_from (in_year y) 0 ts)) years) = years.
Proof. rewrite map_map. cbn [fst]. apply map_id. Qed.

Lemma years_present (ts : list datetime) (y : Z) :
  In y (unique_sorted (map year ts)) <-> exists t, In t ts /\ year t = y.
Proof.
  rewrite unique_sorted_In, in_map_iff.
  split; intros [t [H1 H2]]; exists t; auto.
Qed.

(** What [xr_average_across_days_of_year] returns on a non-empty axis. *)
Lemma average_values (da : DataArray datetime cell)
    (t0 : datetime) (ts : list datetime) :
  outer da = Some ("time"%string, t0 :: ts) ->
  exists out,
    xr_average_across_days_of_year da = Ok out
    /\ outer out = Some ("year"%string, unique_sorted (map year (t0 :: ts)))
    /\ lat out = lat da
    /\ lon out = lon da
    /\ forall g i j,
         (g < length (unique_sorted (map year (t0 :: ts))))%nat ->
         values out g i j
         = nanmean (spec_values_where
                      (in_year (nth g (unique_sorted (map year (t0 :: ts))) 0%Z))
                      da (t0 :: ts) i j).
Proof.
  intros Ht. unfold xr_average_across_days_of_year.
  rewrite (groupby_time_year_groups da t0 ts Ht). cbn [bind].
  eexists. split; [reflexivity|].
  unfold groupby_mean. cbn [outer lat lon values gb_obj gb_groups].
  rewrite group_labels. repeat split.
  intros g i j Hg. rewrite group_positions_nth by exact Hg.
  rewrite along_positions. reflexivity.
Qed.

Lemma sorted_lt_NoDup (l : list Z) : StronglySorted Z.lt l -> NoDup l.
Proof.
  induction 1 as [|a l Hs IH Hf]; constructor.
  - intros Hin. rewrite Forall_forall in Hf. specialize (Hf a Hin). lia.
  - exact IH.
Qed.

Lemma unique_sorted_same (y : Z) (n : nat) :
  unique_sorted (repeat y (S n)) = [y].
Proof.
  induction n as [|n IH].
  - reflexivity.
  - change (repeat y (S (S n))) with (y :: repeat y (S n)).
    cbn [unique_sorted fold_right]. fold (unique_sorted (repeat y (S n))).
    rewrite IH. cbn [insert_uniq].
    rewrite Z.ltb_irrefl, Z.eqb_refl. reflexivity.
Qed.

(** C3. For a field with a ['time'] dimension, on a time axis that is not
    empty, [xr_average_across_days_of_year] puts a ['year'] axis in the
    place of the time axis; the axis holds each calendar year that occurs
    among the timestamps exactly once, in ascending order, and the entry of
    a year at a grid cell is the mean of the cell's values at all the
    timestamps of that year.  Four values 1, 2, 3, 4 within one year give
    2.5. *)
Theorem average_across_days_of_year_by_year :
  forall (da : DataArray datetime cell) (t0 : datetime) (ts : list datetime),
    outer da = Some ("time"%string, t0 :: ts) ->
    exists out years,
      xr_average_across_days_of_year da = Ok out
      /\ outer out = Some ("year"%string, years)
      /\ dims out = ["year"; "lat"; "lon"]%string
      /\ StronglySorted Z.lt years
      /\ NoDup years
      /\ (forall y, In y years <-> exists t, In t (t0 :: ts) /\ year t = y)
      /\ (forall g i j, (g < length years)%nat ->
            values out g i j
            = nanmean (spec_values_where (in_year (nth g years 0%Z))
                         da (t0 :: ts) i j))
      /\ (forall t1 t2 t3,
            ts = [t1; t2; t3] ->
            year t1 = year t0 -> year t2 = year t0 -> year t3 = year t0 ->
            values da 0 0 0 = Num 1 -> values da 1 0 0 = Num 2 ->
            values da 2 0 0 = Num 3 -> values da 3 0 0 = Num 4 ->
            years = [year t0] /\ values out 0 0 0 = Num 2.5).
Proof.
  intros da t0 ts Ht.
  destruct (average_values da t0 ts Ht) as [out [Hout [Ho [_ [_ Hv]]]]].
  exists out, (unique_sorted (map year (t0 :: ts))).
  split; [exact Hout|]. split; [exact Ho|]. split.
  { unfold dims. rewrite Ho. reflexivity. }
  split; [apply unique_sorted_sorted|].
  split; [apply sorted_lt_NoDup, unique_sorted_sorted|].
  split; [intros y; apply years_present|].
  split; [exact Hv|].
  intros t1 t2 t3 -> H1 H2 H3 V0 V1 V2 V3.
  assert (Hy : unique_sorted (map year [t0; t1; t2; t3]) = [year t0]).
  { cbn [map]. rewrite H1, H2, H3. apply (unique_sorted_same (year t0) 3). }
  split; [exact Hy|].
  rewrite Hv by (rewrite Hy; simpl; lia).
  rewrite Hy. cbn [nth].
  unfold spec_values_where, enumerate, in_year. cbn [length seq combine filter snd].
  rewrite H1, H2, H3, Z.eqb_refl. cbn [map fst].
  rewrite V0, V1, V2, V3. unfold nanmean. cbn [skipna Rsum length].
  f_equal. simpl INR. lra.
Qed.

(** The test of the suite: [1, 2, 3, 4] on the first four days of 1995. *)
Lemma average_across_days_of_year_by_year_witness :
  outer (series_field [1; 2; 3; 4])
  = Some ("time"%string,
          [mkDatetime 1995 1 1; mkDatetime 1995 1 2;
           mkDatetime 1995 1 3; mkDatetime 1995 1 4])
  /\ exists out,
       xr_average_across_days_of_year (series_field [1; 2; 3; 4]) = Ok out
       /\ outer out = Some ("year"%string, [1995%Z])
       /\ values out 0 0 0 = Num 2.5.
Proof.
  split; [reflexivity|].
  destruct (average_across_days_of_year_by_year (series_field [1; 2; 3; 4])
              (mkDatetime 1995 1 1)
              [mkDatetime 1995 1 2; mkDatetime 1995 1 3; mkDatetime 1995 1 4]
              eq_refl)
    as [out [years [Hout [Ho [_ [_ [_ [_ [_ H4]]]]]]]]].
  destruct (H4 _ _ _ eq_refl eq_refl eq_refl eq_refl
               eq_refl eq_refl eq_refl eq_refl) as [Hy Hv].
  exists out. split; [exact Hout|]. split.
  - rewrite Ho, Hy. reflexivity.
  - exact Hv.
Defined.

(** The year mean does not turn every field of ones into ones: where a cell
    has no value at all in a year, the mean of the year is missing. *)
Lemma average_all_ones_counterexample :
  ones_where_present series_missing [mkDatetime 1995 1 1]
  /\ exists out,
       xr_average_across_days_of_year series_missing = Ok out
       /\ outer out = Some ("year"%string, [1995%Z])
       /\ values out 0 0 0 = NaN
       /\ values out 0 0 0 <> Num 1.
Proof.
  split.
  - intros k i j x _ _ _ H. discriminate H.
  - eexists. split; [reflexivity|]. split; [reflexivity|].
    split; [reflexivity|]. discriminate.
Qed.

(** C9, amended. For a field, on a time axis that is not empty, whose every
    non-missing value is 1, the entry [xr_average_across_days_of_year]
    returns for a year and a grid cell is 1 when the cell has a non-missing
    value among the timestamps of that year, and missing when it has none.
    When no value of the field is missing, every entry is 1. *)
Theorem average_across_days_of_year_ones :
  forall (da : DataArray datetime cell) (t0 : datetime) (ts : list datetime),
    outer da = Some ("time"%string, t0 :: ts) ->
    ones_where_present da (t0 :: ts) ->
    exists out years,
      xr_average_across_days_of_year da = Ok out
      /\ outer out = Some ("year"%string, years)
      /\ (forall g i j,
            (g < length years)%nat -> (i < nlat da)%nat -> (j < nlon da)%nat ->
            let vs := spec_values_where (in_year (nth g years 0%Z))
                        da (t0 :: ts) i j in
            (skipna vs <> [] -> values out g i j = Num 1)
            /\ (skipna vs = [] -> values out g i j = NaN))
      /\ (constant_field 1 da (t0 :: ts) ->
          forall g i j,
            (g < length years)%nat -> (i < nlat da)%nat -> (j < nlon da)%nat ->
            values out g i j = Num 1).
Proof.
  intros da t0 ts Ht Hones.
  destruct (average_values da t0 ts Ht) as [out [Hout [Ho [_ [_ Hv]]]]].
  exists out, (unique_sorted (map year (t0 :: ts))).
  split; [exact Hout|]. split; [exact Ho|]. split.
  - intros g i j Hg Hi Hj vs. subst vs. rewrite (Hv g i j Hg). split.
    + intros Hne. apply nanmean_const; [exact Hne|].
      intros x Hx.
      destruct (in_spec_values_where _ da (t0 :: ts) i j _ Hx) as [k [Hk E]].
      apply (Hones k i j x Hk Hi Hj). symmetry. exact E.
    + apply nanmean_all_missing.
  - intros Hc g i j Hg Hi Hj. rewrite (Hv g i j Hg).
    apply nanmean_constant_field; [exact Hc|exact Hi|exact Hj|].
    assert (Hin : In (nth g (unique_sorted (map year (t0 :: ts))) 0%Z)
                     (unique_sorted (map year (t0 :: ts))))
      by (apply nth_In; exact Hg).
    apply years_present in Hin. destruct Hin as [t [Hin Hy]].
    exists t. split; [exact Hin|]. unfold in_year. apply Z.eqb_eq. exact Hy.
Qed.

(** A year of 720 daily ones from 1 January 1995 averages to ones. *)
Lemma average_across_days_of_year_ones_witness :
  exists out years,
    xr_average_across_days_of_year (series_field (repeat 1 720)) = Ok out
    /\ outer out = Some ("year"%string, years)
    /\ forall g, (g < length years)%nat -> values out g 0 0 = Num 1.
Proof.
  destruct (average_across_days_of_year_ones (series_field (repeat 1 720))
              (mkDatetime 1995 1 1)
              (date_range (next_day (mkDatetime 1995 1 1)) 719))
    as [out [years [Hout [Ho [_ Hall]]]]].
  - cbn [series_field outer]. rewrite repeat_length. reflexivity.
  - intros k i j x Hk Hi Hj H.
    change (mkDatetime 1995 1 1 :: date_range (next_day (mkDatetime 1995 1 1)) 719)
      with (date_range (mkDatetime 1995 1 1) 720) in Hk.
    rewrite (series_field_constant 1 720 k i j Hk Hi Hj) in H.
    injection H. auto.
  - exists out, years. split; [exact Hout|]. split; [exact Ho|].
    intros g Hg. apply Hall; [apply (series_field_constant 1 720)|exact Hg| |];
      cbn; lia.
Defined.

(* ================================================================== *)
(** * Properties of [xr_collapse_to_global_time_series] *)

Lemma bind_Ok {A : Type} (m : result A) : (x <- m ;; Ok x) = m.
Proof. destruct m; reflexivity. Qed.

(** C4. [xr_collapse_to_global_time_series] is the composition of
    [xr_average_across_days_of_year] and of [xr_collapse_across_space] with
    the weighting ["GMST"], and nothing else; on a field with the
    dimensions ['time'], ['lat'] and ['lon'], the time axis not empty, it
    returns an array whose only dimension is ['year']. *)
Theorem collapse_to_global_time_series_composition :
  forall da : DataArray datetime cell,
    xr_collapse_to_global_time_series da
    = (collapsed <- xr_average_across_days_of_year da ;;
       xr_collapse_across_space collapsed "GMST")
    /\ forall t0 ts,
         outer da = Some ("time"%string, t0 :: ts) ->
         dims da = ["time"; "lat"; "lon"]%string
         /\ exists collapsed out,
              xr_average_across_days_of_year da = Ok collapsed
              /\ xr_collapse_across_space collapsed "GMST" = Ok out
              /\ xr_collapse_to_global_time_series da = Ok out
              /\ r_dims out = ["year"]%string.
Proof.
  intros da.
  assert (E : xr_collapse_to_global_time_series da
              = (collapsed <- xr_average_across_days_of_year da ;;
                 xr_collapse_across_space collapsed "GMST")).
  { unfold xr_collapse_to_global_time_series.
    destruct (xr_average_across_days_of_year da) as [a|e]; cbn [bind].
    - apply bind_Ok.
    - reflexivity. }
  split; [exact E|].
  intros t0 ts Ht. split.
  { unfold dims. rewrite Ht. reflexivity. }
  destruct (average_values da t0 ts Ht) as [collapsed [Hc [Ho _]]].
  destruct (collapse_gmst_ratio collapsed) as [out [Hout [Hro _]]].
  exists collapsed, out. split; [exact Hc|]. split; [exact Hout|]. split.
  - rewrite E, Hc. exact Hout.
  - unfold r_dims. rewrite Hro, Ho. reflexivity.
Qed.

Lemma collapse_to_global_time_series_composition_witness :
  outer (series_field [1; 2; 3; 4])
  = Some ("time"%string,
          [mkDatetime 1995 1 1; mkDatetime 1995 1 2;
           mkDatetime 1995 1 3; mkDatetime 1995 1 4])
  /\ exists out,
       xr_collapse_to_global_time_series (series_field [1; 2; 3; 4]) = Ok out
       /\ r_dims out = ["year"]%string.
Proof.
  split; [reflexivity|].
  destruct (collapse_to_global_time_series_composition
              (series_field [1; 2; 3; 4])) as [_ H].
  destruct (H (mkDatetime 1995 1 1)
              [mkDatetime 1995 1 2; mkDatetime 1995 1 3; mkDatetime 1995 1 4]
              eq_refl) as [_ [collapsed [out [_ [_ [Hg Hd]]]]]].
  exists out. split; [exact Hg|exact Hd].
Defined.

(** The value the suite expects of the global series of [1, 2, 3, 4] on
    the grid of one cell: the year mean 2.5, which the spatial mean of a
    single cell leaves as it is. *)
Lemma collapse_to_global_time_series_1234 :
  exists out,
    xr_collapse_to_global_time_series (series_field [1; 2; 3; 4]) = Ok out
    /\ r_dims out = ["year"]%string
    /\ r_values out 0 = QNum 2.5.
Proof.
  destruct (average_values (series_field [1; 2; 3; 4]) (mkDatetime 1995 1 1)
              [mkDatetime 1995 1 2; mkDatetime 1995 1 3; mkDatetime 1995 1 4]
              eq_refl)
    as [c [Hc [Ho [Hlat [Hlon Hv]]]]].
  destruct (collapse_gmst_ratio c) as [out [Hout [Hro Hval]]].
  exists out. split; [|split].
  - unfold xr_collapse_to_global_time_series. rewrite Hc. cbn [bind].
    unfold xr_collapse_across_space_default. rewrite Hout. reflexivity.
  - unfold r_dims. rewrite Hro, Ho. reflexivity.
  - assert (V : values c 0 0 0 = Num 2.5).
    { rewrite Hv by (simpl; lia).
      change (spec_values_where _ (series_field [1; 2; 3; 4]) _ 0 0)
        with [Num 1; Num 2; Num 3; Num 4].
      unfold nanmean. cbn [skipna Rsum length]. f_equal. simpl INR. lra. }
    assert (W : 0 < cos (1 * PI / 180))
      by (pose proof PI_RGT_0; apply cos_gt_0; lra).
    rewrite Hval.
    unfold spec_numerator, spec_denominator, nlat, nlon.
    rewrite Hlat, Hlon. cbn [series_field lat lon length].
    unfold sum_over. cbn [seq map Rsum].
    unfold spec_term, spec_weight, spec_lat_weight.
    rewrite V, Hlat. cbn [series_field lat nth].
    rewrite cdiv_nonzero by lra. f_equal. field. lra.
Qed.

(* ================================================================== *)
(** * Properties of [xr_count_across_days_of_year] *)

Lemma gtb_true_iff (x y : R) : gtb x y = true <-> x > y.
Proof.
  unfold gtb. destruct (Rgt_dec x y); split; auto; discriminate.
Qed.

Lemma gtb_irrefl (x : R) : gtb x x = false.
Proof.
  destruct (gtb x x) eqn:E; [|reflexivity]. apply gtb_true_iff in E. lra.
Qed.

Lemma nancount_mask_above (threshold : R) (l : list cell) :
  nancount (map (mask_above threshold) l)
  = length (filter (exceeds threshold) l).
Proof.
  unfold nancount. induction l as [|c l IH]; [reflexivity|].
  cbn [map filter]. unfold mask_above at 1.
  destruct (exceeds threshold c) eqn:E.
  - destruct c as [|v]; [discriminate|]. cbn [skipna length]. rewrite IH.
    reflexivity.
  - cbn [skipna]. exact IH.
Qed.

Lemma where_gt_values {L : Type} (da : DataArray L cell) (threshold : R)
    (k i j : nat) :
  values (da_where da (da_gt da threshold) NaN) k i j
  = mask_above threshold (values da k i j).
Proof.
  cbn [da_where da_gt values]. unfold mask_above, exceeds.
  destruct (values da k i j); reflexivity.
Qed.

Lemma spec_values_where_masked (p : datetime -> bool)
    (da : DataArray datetime cell) (threshold : R) (ts : list datetime)
    (i j : nat) :
  spec_values_where p (da_where da (da_gt da threshold) NaN) ts i j
  = map (mask_above threshold) (spec_values_where p da ts i j).
Proof.
  unfold spec_values_where. rewrite map_map.
  apply map_ext. intros [k t]. apply where_gt_values.
Qed.

(** What [xr_count_across_days_of_year] returns on a non-empty axis. *)
Lemma count_values (da : DataArray datetime cell) (count_above : R)
    (t0 : datetime) (ts : list datetime) :
  outer da = Some ("time"%string, t0 :: ts) ->
  exists out,
    xr_count_across_days_of_year da count_above = Ok out
    /\ outer out = Some ("time"%string, unique_sorted (map year (t0 :: ts)))
    /\ forall g i j,
         (g < length (unique_sorted (map year (t0 :: ts))))%nat ->
         values out g i j
         = length (filter (exceeds count_above)
                     (spec_values_where
                        (in_year (nth g (unique_sorted (map year (t0 :: ts))) 0%Z))
                        da (t0 :: ts) i j)).
Proof.
  intros Ht. unfold xr_count_across_days_of_year.
  rewrite (groupby_time_year_groups
             (da_where da (da_gt da count_above) NaN) t0 ts Ht).
  cbn [bind]. unfold rename, groupby_count.
  cbn [outer lat lon values gb_obj gb_groups]. simpl String.eqb. cbn [bind].
  eexists. split; [reflexivity|]. cbn [outer values].
  rewrite group_labels. split; [reflexivity|].
  intros g i j Hg. rewrite group_positions_nth by exact Hg.
  rewrite along_positions, spec_values_where_masked.
  apply nancount_mask_above.
Qed.

(** C7. For a field with a ['time'] dimension, on a time axis that is not
    empty, and a threshold, [xr_count_across_days_of_year] returns for each
    calendar year of the axis, in ascending order, and each grid cell the
    number of timestamps of that year whose value is strictly greater than
    the threshold; a value equal to the threshold is not counted, nor is a
    missing one.  The axis of years is named ['time'] in the result. *)
Theorem count_across_days_of_year_by_year :
  forall (da : DataArray datetime cell) (count_above : R)
         (t0 : datetime) (ts : list datetime),
    outer da = Some ("time"%string, t0 :: ts) ->
    exists out years,
      xr_count_across_days_of_year da count_above = Ok out
      /\ outer out = Some ("time"%string, years)
      /\ dims out = ["time"; "lat"; "lon"]%string
      /\ years = unique_sorted (map year (t0 :: ts))
      /\ StronglySorted Z.lt years
      /\ (forall y, In y years <-> exists t, In t (t0 :: ts) /\ year t = y)
      /\ (forall g i j, (g < length years)%nat ->
            values out g i j
            = length (filter (exceeds count_above)
                        (spec_values_where (in_year (nth g years 0%Z))
                           da (t0 :: ts) i j)))
      /\ (forall v, exceeds count_above (Num v) = true <-> v > count_above)
      /\ exceeds count_above (Num count_above) = false
      /\ exceeds count_above NaN = false.
Proof.
  intros da count_above t0 ts Ht.
  destruct (count_values da count_above t0 ts Ht) as [out [Hout [Ho Hv]]].
  exists out, (unique_sorted (map year (t0 :: ts))).
  split; [exact Hout|]. split; [exact Ho|]. split.
  { unfold dims. rewrite Ho. reflexivity. }
  split; [reflexivity|].
  split; [apply unique_sorted_sorted|].
  split; [intros y; apply years_present|].
  split; [exact Hv|].
  split; [intros v; apply gtb_true_iff|].
  split; [apply gtb_irrefl|reflexivity].
Qed.

Lemma gtb_false_iff (x y : R) : gtb x y = false <-> x <= y.
Proof.
  unfold gtb. destruct (Rgt_dec x y); split; intros H;
    try discriminate; try reflexivity; lra.
Qed.

(** Of the values 1, 2, 3, 4 of one year, two are above 2, and 2 itself is
    not one of them. *)
Lemma count_across_days_of_year_by_year_witness :
  outer (series_field [1; 2; 3; 4])
  = Some ("time"%string,
          [mkDatetime 1995 1 1; mkDatetime 1995 1 2;
           mkDatetime 1995 1 3; mkDatetime 1995 1 4])
  /\ exists out,
       xr_count_across_days_of_year (series_field [1; 2; 3; 4]) 2 = Ok out
       /\ outer out = Some ("time"%string, [1995%Z])
       /\ values out 0 0 0 = 2%nat.
Proof.
  split; [reflexivity|].
  destruct (count_across_days_of_year_by_year (series_field [1; 2; 3; 4]) 2
              (mkDatetime 1995 1 1)
              [mkDatetime 1995 1 2; mkDatetime 1995 1 3; mkDatetime 1995 1 4]
              eq_refl)
    as [out [years [Hout [Ho [_ [Hy [_ [_ [Hv _]]]]]]]]].
  assert (E : years = [1995%Z]) by (rewrite Hy; reflexivity).
  exists out. split; [exact Hout|]. split.
  - rewrite Ho, E. reflexivity.
  - rewrite Hv by (rewrite E; simpl; lia). rewrite E.
    change (spec_values_where (in_year (nth 0 [1995%Z] 0%Z))
              (series_field [1; 2; 3; 4])
              [mkDatetime 1995 1 1; mkDatetime 1995 1 2;
               mkDatetime 1995 1 3; mkDatetime 1995 1 4] 0 0)
      with [Num 1; Num 2; Num 3; Num 4].
    cbn [filter exceeds].
    rewrite (proj2 (gtb_false_iff 1 2)) by lra.
    rewrite (proj2 (gtb_false_iff 2 2)) by lra.
    rewrite (proj2 (gtb_true_iff 3 2)) by lra.
    rewrite (proj2 (gtb_true_iff 4 2)) by lra.
    reflexivity.
Defined.

(* ================================================================== *)
(** * Properties of [xr_quantiles_across_time_by_cell] *)

Lemma index_of_None (x : R) (l : list R) :
  index_of x l = None <-> ~ In x l.
Proof.
  induction l as [|h t IH]; simpl.
  - tauto.
  - destruct (Req_dec_T x h) as [E|E].
    + split; [discriminate|]. intros H. exfalso. apply H. left. auto.
    + destruct (index_of x t); simpl.
      * split; [discriminate|]. intros H. exfalso.
        destruct IH as [_ IH].
        assert (Hn : ~ In x t) by (intros Hin; apply H; right; exact Hin).
        specialize (IH Hn). discriminate.
      * split; [|reflexivity]. intros _ [H|H]; [auto|].
        destruct IH as [IH _]. apply (IH eq_refl H).
Qed.

Lemma index_of_Some (x : R) (l : list R) (i : nat) :
  index_of x l = Some i -> nth_error l i = Some x.
Proof.
  revert i. induction l as [|h t IH]; intros i; simpl.
  - discriminate.
  - destruct (Req_dec_T x h) as [E|E].
    + intros H. injection H as <-. simpl. f_equal. auto.
    + destruct (index_of x t) as [i'|]; simpl; [|discriminate].
      intros H. injection H as <-. simpl. apply IH. reflexivity.
Qed.

Lemma index_of_In (x : R) (l : list R) :
  In x l -> exists i, index_of x l = Some i.
Proof.
  intros H. destruct (index_of x l) as [i|] eqn:E.
  - exists i. reflexivity.
  - apply index_of_None in E. contradiction.
Qed.

Lemma cell_eqb_eq (c c' : R * R) : cell_eqb c c' = true <-> c = c'.
Proof.
  unfold cell_eqb. destruct c as [a b], c' as [a' b']. cbn [fst snd].
  destruct (Req_dec_T a a') as [Ea|Ea]; [destruct (Req_dec_T b b') as [Eb|Eb]|].
  - subst. tauto.
  - split; [discriminate|]. intros H. injection H. intros. contradiction.
  - split; [discriminate|]. intros H. injection H. intros. contradiction.
Qed.

Lemma cell_eq_dec (c c' : R * R) : {c = c'} + {c <> c'}.
Proof.
  destruct (cell_eqb c c') eqn:E.
  - left. apply cell_eqb_eq. exact E.
  - right. intros H. apply cell_eqb_eq in H. rewrite H in E. discriminate.
Qed.

Lemma level_ok_iff (q : R) : level_ok q = true <-> 0 <= q <= 1.
Proof.
  unfold level_ok.
  destruct (Rle_dec 0 q); [destruct (Rle_dec q 1)|];
    split; intros H; try discriminate; try reflexivity; lra.
Qed.

(** The quantiles of a series with a time axis, at levels in [0, 1]. *)
Lemma quantile_time_spec (o : list datetime) (f : nat -> cell) (q : levels) :
  valid_levels q ->
  exists v,
    quantile_time (mkReduced (Some ("time"%string, o)) f) q = Ok v
    /\ quantiles_of (map f (seq 0 (length o))) q v.
Proof.
  intros Hq. unfold quantile_time, time_axis_of_reduced.
  cbn [r_outer r_values]. simpl String.eqb. cbn [bind].
  destruct q as [q0|qs]; cbn [valid_levels] in Hq.
  - rewrite (proj2 (level_ok_iff q0) Hq).
    eexists. split; [reflexivity|]. split; reflexivity.
  - assert (Hall : forallb level_ok qs = true).
    { apply forallb_forall. intros x Hx. apply level_ok_iff.
      rewrite Forall_forall in Hq. apply Hq. exact Hx. }
    rewrite Hall. eexists. split; [reflexivity|].
    split; [reflexivity|]. intros n _. reflexivity.
Qed.

(** The loop binds every cell it goes through to the quantiles of the
    series at the position of the cell's coordinates, and leaves the other
    keys as they were. *)
Lemma quantiles_each_spec (da : DataArray datetime cell) (ts : list datetime)
    (q : levels) (cells : list (R * R)) :
  outer da = Some ("time"%string, ts) ->
  valid_levels q ->
  (forall c, In c cells -> on_grid da c) ->
  forall results,
  exists final,
    quantiles_each da q cells results = Ok final
    /\ (forall c, In c cells ->
          exists i j v,
            nth_error (lat da) i = Some (fst c)
            /\ nth_error (lon da) j = Some (snd c)
            /\ dict_get cell_eqb final c = Some v
            /\ quantiles_of (cell_series da ts i j) q v)
    /\ (forall c, ~ In c cells ->
          dict_get cell_eqb final c = dict_get cell_eqb results c).
Proof.
  intros Ht Hq. induction cells as [|c rest IH]; intros Hg results.
  - exists results. split; [reflexivity|]. split.
    + intros c [].
    + intros c _. reflexivity.
  - destruct (Hg c (or_introl eq_refl)) as [Hlat Hlon].
    destruct (index_of_In _ _ Hlat) as [i Hi].
    destruct (index_of_In _ _ Hlon) as [j Hj].
    destruct (quantile_time_spec ts (fun k => values da k i j) q Hq)
      as [v [Hv Hqv]].
    destruct (IH (fun c' Hc' => Hg c' (or_intror Hc'))
                 (dict_set cell_eqb results c v))
      as [final [Hfin [Hin Hout]]].
    exists final. split.
    { cbn [quantiles_each]. unfold sel_lat_lon. rewrite Hi, Hj. cbn [bind].
      rewrite Ht, Hv. cbn [bind]. exact Hfin. }
    split.
    + intros c' [<-|Hc']; [|apply Hin; exact Hc'].
      destruct (in_dec cell_eq_dec c rest) as [Hr|Hr].
      * apply Hin. exact Hr.
      * exists i, j, v.
        split; [apply index_of_Some; exact Hi|].
        split; [apply index_of_Some; exact Hj|].
        split; [|exact Hqv].
        rewrite (Hout c Hr). apply dict_get_set_same. apply cell_eqb_eq.
    + intros c' Hc'. simpl in Hc'.
      rewrite Hout by tauto.
      apply dict_get_set_other; [apply cell_eqb_eq|].
      intros E. apply Hc'. left. symmetry. exact E.
Qed.

(** A cell off the grid makes the call fail. *)
Lemma quantiles_each_off_grid (da : DataArray datetime cell) (q : levels)
    (cells : list (R * R)) :
  (exists c, In c cells /\ ~ on_grid da c) ->
  forall results, exists e, quantiles_each da q cells results = Raise e.
Proof.
  induction cells as [|c rest IH]; intros [c0 [Hin Hoff]] results.
  - destruct Hin.
  - cbn [quantiles_each]. unfold sel_lat_lon.
    destruct (index_of (fst c) (lat da)) as [i|] eqn:Ei;
      [|eexists; reflexivity].
    destruct (index_of (snd c) (lon da)) as [j|] eqn:Ej;
      [|eexists; reflexivity].
    cbn [bind].
    destruct (quantile_time _ q) as [v|e]; [|eexists; reflexivity].
    cbn [bind]. apply IH. exists c0. split; [|exact Hoff].
    destruct Hin as [->|Hin]; [|exact Hin].
    exfalso. apply Hoff. split.
    + apply index_of_Some in Ei. apply nth_error_In in Ei. exact Ei.
    + apply index_of_Some in Ej. apply nth_error_In in Ej. exact Ej.
Qed.

(** With a time axis and levels in [0, 1], the failure is the lookup's
    [KeyError], on the dimension whose index lacks the coordinate. *)
Lemma quantiles_each_key_error (da : DataArray datetime cell)
    (ts : list datetime) (q : levels) (cells : list (R * R)) :
  outer da = Some ("time"%string, ts) ->
  valid_levels q ->
  (exists c, In c cells /\ ~ on_grid da c) ->
  forall results,
    quantiles_each da q cells results = Raise (KeyError "lat")
    \/ quantiles_each da q cells results = Raise (KeyError "lon").
Proof.
  intros Ht Hq.
  induction cells as [|c rest IH]; intros [c0 [Hin Hoff]] results.
  - destruct Hin.
  - cbn [quantiles_each]. unfold sel_lat_lon.
    destruct (index_of (fst c) (lat da)) as [i|] eqn:Ei;
      [|left; reflexivity].
    destruct (index_of (snd c) (lon da)) as [j|] eqn:Ej;
      [|right; reflexivity].
    cbn [bind].
    destruct (quantile_time_spec ts (fun k => values da k i j) q Hq)
      as [v [Hv _]].
    rewrite Ht, Hv. cbn [bind]. apply IH. exists c0. split; [|exact Hoff].
    destruct Hin as [->|Hin]; [|exact Hin].
    exfalso. apply Hoff. split.
    + apply index_of_Some in Ei. apply nth_error_In in Ei. exact Ei.
    + apply index_of_Some in Ej. apply nth_error_In in Ej. exact Ej.
Qed.

Lemma nth_error_unique {A : Type} (l : list A) (x : A) (i i' : nat) :
  NoDup l -> nth_error l i = Some x -> nth_error l i' = Some x -> i' = i.
Proof.
  intros Hnd Hi Hi'.
  apply (proj1 (NoDup_nth_error l) Hnd).
  - apply nth_error_Some. rewrite Hi'. discriminate.
  - rewrite Hi, Hi'. reflexivity.
Qed.

(** C8. For a field with a ['time'] dimension on a grid of distinct
    coordinate labels, levels in [0, 1] and a list of (lat, lon) pairs:
    when every pair names a cell of the grid, by labels that are exactly
    among the field's, [xr_quantiles_across_time_by_cell] returns a
    dictionary that binds each pair to the requested quantiles of the time
    series of the one cell with these labels; when some pair has a
    coordinate that is not among the labels, the call returns nothing and
    fails with the lookup's [KeyError], no other cell standing in. *)
Theorem quantiles_across_time_by_cell_mapping :
  forall (da : DataArray datetime cell) (ts : list datetime) (q : levels)
         (cells : list (R * R)),
    outer da = Some ("time"%string, ts) ->
    valid_levels q ->
    NoDup (lat da) -> NoDup (lon da) ->
    ((forall c, In c cells -> on_grid da c) ->
     exists results,
       xr_quantiles_across_time_by_cell da q cells = Ok results
       /\ forall c, In c cells ->
            exists i j v,
              nth_error (lat da) i = Some (fst c)
              /\ nth_error (lon da) j = Some (snd c)
              /\ (forall i', nth_error (lat da) i' = Some (fst c) -> i' = i)
              /\ (forall j', nth_error (lon da) j' = Some (snd c) -> j' = j)
              /\ dict_get cell_eqb results c = Some v
              /\ quantiles_of (cell_series da ts i j) q v)
    /\ ((exists c, In c cells /\ ~ on_grid da c) ->
        (xr_quantiles_across_time_by_cell da q cells = Raise (KeyError "lat")
         \/ xr_quantiles_across_time_by_cell da q cells
            = Raise (KeyError "lon"))
        /\ forall results,
             xr_quantiles_across_time_by_cell da q cells <> Ok results).
Proof.
  intros da ts q cells Ht Hq Hlat Hlon. split.
  - intros Hg.
    destruct (quantiles_each_spec da ts q cells Ht Hq Hg [])
      as [final [Hfin [Hin _]]].
    exists final. split; [exact Hfin|].
    intros c Hc. destruct (Hin c Hc) as [i [j [v [Hi [Hj [Hget Hv]]]]]].
    exists i, j, v. split; [exact Hi|]. split; [exact Hj|].
    split; [intros i' Hi'; apply (nth_error_unique _ _ _ _ Hlat Hi Hi')|].
    split; [intros j' Hj'; apply (nth_error_unique _ _ _ _ Hlon Hj Hj')|].
    split; [exact Hget|exact Hv].
  - intros Hoff. split.
    + apply (quantiles_each_key_error da ts q cells Ht Hq Hoff).
    + intros results.
      destruct (quantiles_each_off_grid da q cells Hoff []) as [e He].
      unfold xr_quantiles_across_time_by_cell. rewrite He. discriminate.
Qed.

(* ================================================================== *)
(** * The quantile of a ramp *)

Lemma skipna_map_Num (f : nat -> R) (l : list nat) :
  skipna (map (fun k => Num (f k)) l) = map f l.
Proof.
  induction l as [|k l IH]; simpl; [reflexivity|]. rewrite IH. reflexivity.
Qed.

(** Sorting leaves an ascending sequence as it is. *)
Lemma sort_map_seq (f : nat -> R) (s n : nat) :
  (forall a, f a <= f (S a)) ->
  sort (map f (seq s n)) = map f (seq s n).
Proof.
  intros Hf. revert s. induction n as [|n IH]; intros s; [reflexivity|].
  cbn [seq map]. unfold sort. cbn [fold_right].
  fold (sort (map f (seq (S s) n))). rewrite IH.
  destruct n as [|n]; [reflexivity|].
  cbn [seq map insert_sorted].
  destruct (Rle_dec (f s) (f (S s))) as [_|H]; [reflexivity|].
  exfalso. apply H. apply Hf.
Qed.

(** The interpolation [nanquantile] performs, once the order statistics on
    both sides of the level are known. *)
Lemma nanquantile_interp (l : list cell) (xs : list R) (q : R) (lo : nat)
    (a b : R) :
  sort (skipna l) = xs ->
  Zfloor (q * INR (length xs - 1)) = Z.of_nat lo ->
  nth_error xs lo = Some a ->
  nth_error xs (Nat.min (S lo) (length xs - 1)) = Some b ->
  nanquantile l q = Num (a + (q * INR (length xs - 1) - INR lo) * (b - a)).
Proof.
  intros Hs Hf Ha Hb. unfold nanquantile. rewrite Hs.
  destruct xs as [|x0 rest]; [destruct lo; discriminate|].
  cbv beta iota zeta. rewrite Hf, Nat2Z.id.
  rewrite (nth_error_nth _ _ x0 Ha), (nth_error_nth _ _ x0 Hb).
  reflexivity.
Qed.

(** The regression value of the test suite: the 0.1-quantile of the ramp
    1, ..., 100 is 10.9. *)
Lemma quantile_ramp :
  nanquantile (map (fun k => Num (INR (S k))) (seq 0 100)) 0.1 = Num 10.9.
Proof.
  assert (Hlen : length (map (fun k => INR (S k)) (seq 0 100)) = 100%nat)
    by (rewrite length_map, length_seq; reflexivity).
  assert (H99 : INR (100 - 1) = 99)
    by (rewrite INR_IZR_INZ; reflexivity).
  rewrite (nanquantile_interp _ (map (fun k => INR (S k)) (seq 0 100))
             0.1 9 (INR 10) (INR 11)).
  - rewrite Hlen, H99. f_equal.
    rewrite !INR_IZR_INZ. simpl Z.of_nat. lra.
  - rewrite skipna_map_Num. apply sort_map_seq.
    intros a. apply le_INR. lia.
  - rewrite Hlen, H99. apply Zfloor_eq. simpl Z.of_nat. lra.
  - reflexivity.
  - rewrite Hlen. reflexivity.
Qed.

(** The test of the suite: at the corner cells of the ramp fixture the
    0.1-quantile is 10.9. *)
Lemma quantiles_across_time_by_cell_mapping_witness :
  exists results,
    xr_quantiles_across_time_by_cell ramp_field (Levels [0.1; 0.2])
      [(-90, -180); (90, 180)] = Ok results
    /\ forall c, In c [(-90, -180); (90, 180)] ->
         exists v,
           dict_get cell_eqb results c = Some v
           /\ r_values v 0 = Num 10.9.
Proof.
  destruct (quantiles_across_time_by_cell_mapping ramp_field
              (date_range (mkDatetime 1995 1 1) 100)
              (Levels [0.1; 0.2]) [(-90, -180); (90, 180)])
    as [Hok _].
  - reflexivity.
  - cbn. repeat constructor; lra.
  - cbn. constructor; [intros [H|[]]; lra|].
    constructor; [intros []|constructor].
  - cbn. constructor; [intros [H|[]]; lra|].
    constructor; [intros []|constructor].
  - destruct Hok as [results [Hr Hc]].
    { intros c [<-|[<-|[]]]; split; cbn; auto. }
    exists results. split; [exact Hr|].
    intros c Hin.
    destruct (Hc c Hin) as [i [j [v [_ [_ [_ [_ [Hg [_ Hq]]]]]]]]].
    exists v. split; [exact Hg|].
    rewrite (Hq 0%nat) by (simpl; lia). cbn [nth].
    unfold cell_series. cbn [ramp_field values].
    rewrite date_range_length. apply quantile_ramp.
Defined.

(* ================================================================== *)
(** * Further properties of [xr_collapse_across_time] *)

(** X4. Bounds in the wrong order select nothing: on a time axis in
    ascending order, when the last day of the end date is before the first
    day of the start date, [xr_collapse_across_time] does not raise and
    returns an array of missing entries, whatever the field holds. *)
Theorem collapse_across_time_reversed_bounds :
  forall (da : DataArray datetime cell) (ts : list datetime)
         (start stop : string) (lo hi : partial_date),
    outer da = Some ("time"%string, ts) ->
    ascending ts = true ->
    parse_date start = Some lo ->
    parse_date stop = Some hi ->
    (forall t, In t ts -> calendar_date t) ->
    date_lt (last_day hi) (first_day lo) ->
    exists out,
      xr_collapse_across_time da (start, stop) = Ok out
      /\ forall k i j, values out k i j = NaN.
Proof.
  intros da ts start stop lo hi Ht Hasc Hlo Hhi Hcal Hlt.
  destruct (collapse_across_time_values da ts start stop lo hi Ht Hasc Hlo Hhi)
    as [out [Hout [_ [_ [_ Hv]]]]].
  exists out. split; [exact Hout|].
  intros k i j. rewrite Hv, spec_values_where_none; [reflexivity|].
  intros t Hin. destruct (in_range lo hi t) eqn:E; [|reflexivity].
  exfalso. apply (in_range_inclusive lo hi t (Hcal t Hin)) in E.
  destruct E as [E1 E2]. unfold ymd in *.
  destruct (first_day lo) as [[y1 m1] d1], (last_day hi) as [[y2 m2] d2].
  cbn [date_le date_lt] in *. lia.
Qed.

Lemma collapse_across_time_reversed_bounds_witness :
  exists out,
    xr_collapse_across_time (series_field [1; 2; 3; 4])
      ("1996", "1995-06")%string = Ok out
    /\ values out 0 0 0 = NaN.
Proof.
  destruct (collapse_across_time_reversed_bounds (series_field [1; 2; 3; 4])
              (date_range (mkDatetime 1995 1 1) 4)
              "1996" "1995-06" (Y 1996) (YM 1995 6)
              eq_refl eq_refl eq_refl eq_refl) as [out [Hout Hv]].
  - intros t [<-|[<-|[<-|[<-|[]]]]]; unfold calendar_date; cbn; lia.
  - cbn. lia.
  - exists out. split; [exact Hout|apply Hv].
Defined.

Lemma spec_values_where_within (p : datetime -> bool)
    (da : DataArray datetime cell) (ts : list datetime) (m M : R) (i j : nat) :
  field_within da ts m M ->
  (i < nlat da)%nat -> (j < nlon da)%nat ->
  forall x, In (Num x) (spec_values_where p da ts i j) -> m <= x <= M.
Proof.
  intros Hf Hi Hj x Hx.
  destruct (in_spec_values_where p da ts i j _ Hx) as [k [Hk E]].
  apply (Hf k i j x Hk Hi Hj). symmetry. exact E.
Qed.

(* ================================================================== *)
(** * Further properties of [apply_xr_collapse_across_time] *)

Section DictOrder.
Context {K V : Type}.
Variable eqb : K -> K -> bool.
Hypothesis eqb_spec : forall k k', eqb k k' = true <-> k = k'.

(** Binding a key that is not bound yet adds it after the others. *)
Lemma dict_set_fresh (d : dict (V := V)) (k : K) (v : V) :
  ~ In k (map fst d) ->
  map fst (dict_set eqb d k v) = map fst d ++ [k].
Proof.
  induction d as [|[k' v'] d IH]; intros Hk; simpl.
  - reflexivity.
  - simpl in Hk. rewrite (eqb_neq_false eqb eqb_spec k k') by intuition.
    simpl. rewrite IH by intuition. reflexivity.
Qed.

(** Binding a key never removes one, and adds at most the key given. *)
Lemma dict_set_keys (d : dict (V := V)) (k k0 : K) (v : V) :
  In k0 (map fst (dict_set eqb d k v)) <-> k0 = k \/ In k0 (map fst d).
Proof.
  induction d as [|[k' v'] d IH]; simpl.
  - intuition.
  - destruct (eqb k k') eqn:E; simpl.
    + apply eqb_spec in E. subst k'. intuition.
    + rewrite IH. intuition.
Qed.
End DictOrder.

Lemma collapse_each_keys (da : DataArray datetime cell)
    (slices : list (string * string)) :
  (forall sl, In sl slices -> exists v, xr_collapse_across_time da sl = Ok v) ->
  forall results,
    NoDup (map fst results ++ map slice_key slices) ->
    exists final,
      collapse_each da slices results = Ok final
      /\ map fst final = map fst results ++ map slice_key slices.
Proof.
  induction slices as [|sl rest IH]; intros Hok results Hnd.
  - exists results. split; [reflexivity|]. simpl. rewrite app_nil_r. reflexivity.
  - destruct (Hok sl (or_introl eq_refl)) as [v Hv].
    cbn [map] in Hnd.
    assert (Hfresh : ~ In (slice_key sl) (map fst results)).
    { intros Hin. apply (NoDup_remove_2 _ _ _ Hnd).
      apply in_or_app. left. exact Hin. }
    destruct (IH (fun s Hs => Hok s (or_intror Hs))
                 (dict_set String.eqb results (slice_key sl) v))
      as [final [Hfin Hkeys]].
    { rewrite (dict_set_fresh String.eqb String.eqb_eq) by exact Hfresh.
      rewrite <- app_assoc. exact Hnd. }
    exists final. split.
    + cbn [collapse_each]. rewrite Hv. exact Hfin.
    + rewrite Hkeys.
      rewrite (dict_set_fresh String.eqb String.eqb_eq) by exact Hfresh.
      rewrite <- app_assoc. reflexivity.
Qed.

(** X6. The dictionary [apply_xr_collapse_across_time] returns for a list
    of distinct pairs, on each of which [xr_collapse_across_time] returns,
    holds one entry per pair and no other, in the order of the list: its
    keys, in insertion order, are the keys ["<start>_<end>"] of the pairs in
    the order they were given. *)
Theorem apply_collapse_across_time_keys_in_order :
  forall (da : DataArray datetime cell) (slices : list (string * string)),
    (forall sl, In sl slices ->
       exists v, xr_collapse_across_time da sl = Ok v) ->
    NoDup slices ->
    exists results,
      apply_xr_collapse_across_time da slices = Ok results
      /\ map fst results = map slice_key slices
      /\ length results = length slices.
Proof.
  intros da slices Hok Hnd.
  destruct (collapse_each_keys da slices Hok [])
    as [final [Hfin Hkeys]].
  { cbn [map app]. apply NoDup_map_NoDup_ForallPairs; [|exact Hnd].
    intros a b Ha Hb E.
    destruct (Hok a Ha) as [va Hva]. destruct (Hok b Hb) as [vb Hvb].
    apply dates_key_inj;
      [exact (collapse_across_time_ok_dates da a va Hva)
      |exact (collapse_across_time_ok_dates da b vb Hvb)|exact E]. }
  cbn [map app] in Hkeys.
  exists final. split; [exact Hfin|]. split; [exact Hkeys|].
  rewrite <- (length_map fst final), Hkeys, length_map. reflexivity.
Qed.

(** The slices the function takes by default, on the four days of the
    test series: four entries, in the order of the list. *)
Lemma apply_collapse_across_time_keys_in_order_witness :
  exists results,
    apply_xr_collapse_across_time_default (series_field [1; 2; 3; 4])
    = Ok results
    /\ map fst results
       = ["2020_2040"; "2040_2060"; "2060_2080"; "2080_2100"]%string.
Proof.
  destruct (apply_collapse_across_time_keys_in_order
              (series_field [1; 2; 3; 4]) default_slices)
    as [results [Hr [Hk _]]].
  - intros sl Hsl.
    apply (collapse_across_time_returns _
             (date_range (mkDatetime 1995 1 1) 4)); [reflexivity|reflexivity|].
    destruct Hsl as [<-|[<-|[<-|[<-|[]]]]]; split; discriminate.
  - repeat constructor; simpl; intuition discriminate.
  - exists results. split; [exact Hr|exact Hk].
Defined.

Lemma collapse_each_raises (da : DataArray datetime cell)
    (pre post : list (string * string)) (sl : string * string) (e : exn) :
  (forall s, In s pre -> exists v, xr_collapse_across_time da s = Ok v) ->
  xr_collapse_across_time da sl = Raise e ->
  forall results, collapse_each da (pre ++ sl :: post) results = Raise e.
Proof.
  intros Hpre Hsl. induction pre as [|s pre IH]; intros results.
  - cbn [app collapse_each]. rewrite Hsl. reflexivity.
  - destruct (Hpre s (or_introl eq_refl)) as [v Hv].
    cbn [app collapse_each]. rewrite Hv. cbn [bind].
    apply IH. intros s' Hs'. apply Hpre. right. exact Hs'.
Qed.

(** X7. A slice that fails makes the whole call fail: when
    [xr_collapse_across_time] raises on a pair of the list and succeeds on
    the pairs before it, [apply_xr_collapse_across_time] raises the same
    exception; the reductions already made are not returned and the pairs
    after it are not looked at. *)
Theorem apply_collapse_across_time_raises :
  forall (da : DataArray datetime cell)
         (pre post : list (string * string)) (sl : string * string) (e : exn),
    (forall s, In s pre -> exists v, xr_collapse_across_time da s = Ok v) ->
    xr_collapse_across_time da sl = Raise e ->
    apply_xr_collapse_across_time da (pre ++ sl :: post) = Raise e.
Proof.
  intros da pre post sl e Hpre Hsl.
  apply (collapse_each_raises da pre post sl e Hpre Hsl).
Qed.

Lemma apply_collapse_across_time_raises_witness :
  apply_xr_collapse_across_time (series_field [1; 2; 3; 4])
    [("1995", "1996"); ("soon", "2060"); ("2060", "2080")]%string
  = Raise (KeyError "soon").
Proof.
  apply (apply_collapse_across_time_raises (series_field [1; 2; 3; 4])
           [("1995", "1996")%string] [("2060", "2080")%string]
           ("soon", "2060")%string (KeyError "soon")).
  - intros s [<-|[]].
    apply (collapse_across_time_returns _
             (date_range (mkDatetime 1995 1 1) 4)); [reflexivity|reflexivity|].
    split; discriminate.
  - reflexivity.
Defined.

(* ================================================================== *)
(** * Further properties of [xr_count_across_days_of_year] *)

Lemma list_sum_plus {A : Type} (f g : A -> nat) (l : list A) :
  list_sum (map (fun a => f a + g a)%nat l)
  = (list_sum (map f l) + list_sum (map g l))%nat.
Proof.
  induction l as [|a l IH]; simpl; [reflexivity|]. rewrite IH. lia.
Qed.

Lemma list_sum_zero {A : Type} (f : A -> nat) (l : list A) :
  (forall a, In a l -> f a = 0%nat) -> list_sum (map f l) = 0%nat.
Proof.
  induction l as [|a l IH]; simpl; intros H; [reflexivity|].
  rewrite (H a) by (left; reflexivity).
  rewrite IH by (intros b Hb; apply H; right; exact Hb). reflexivity.
Qed.

Lemma list_sum_cons (a : nat) (l : list nat) :
  list_sum (a :: l) = (a + list_sum l)%nat.
Proof. reflexivity. Qed.

(** Among distinct years, exactly one is the year of a given timestamp. *)
Lemma list_sum_one_year (x : Z) (c : nat) (ys : list Z) :
  NoDup ys -> In x ys ->
  list_sum (map (fun y => if (x =? y)%Z then c else 0%nat) ys) = c.
Proof.
  induction 1 as [|y ys Hy Hnd IH]; intros Hin; [destruct Hin|].
  cbn [map]. rewrite list_sum_cons. destruct (x =? y)%Z eqn:E.
  - apply Z.eqb_eq in E. subst y.
    rewrite list_sum_zero; [lia|].
    intros y' Hy'. destruct (x =? y')%Z eqn:E'; [|reflexivity].
    apply Z.eqb_eq in E'. subst y'. contradiction.
  - apply Z.eqb_neq in E. destruct Hin as [->|Hin]; [contradiction|].
    rewrite IH by exact Hin. reflexivity.
Qed.

(** Sorting a sample by the year of its elements loses none and repeats
    none. *)
Lemma list_sum_by_year {A : Type} (key : A -> Z) (P : A -> bool)
    (ys : list Z) (l : list A) :
  NoDup ys ->
  (forall a, In a l -> In (key a) ys) ->
  list_sum (map (fun y =>
                   length (filter P (filter (fun a => (key a =? y)%Z) l))) ys)
  = length (filter P l).
Proof.
  intros Hnd. induction l as [|a l IH]; intros Hin.
  - apply list_sum_zero. reflexivity.
  - rewrite (map_ext _
               (fun y => ((if (key a =? y)%Z
                           then (if P a then 1 else 0) else 0)
                          + length (filter P
                                      (filter (fun a' => (key a' =? y)%Z) l)))%nat)).
    + rewrite list_sum_plus, IH by (intros b Hb; apply Hin; right; exact Hb).
      rewrite list_sum_one_year
        by (try exact Hnd; apply Hin; left; reflexivity).
      cbn [filter]. destruct (P a); reflexivity.
    + intros y. cbn [filter]. destruct (key a =? y)%Z; [|reflexivity].
      cbn [filter]. destruct (P a); reflexivity.
Qed.

Lemma map_fst_enumerate {L : Type} (labels : list L) :
  map fst (enumerate labels) = seq 0 (length labels).
Proof.
  unfold enumerate. generalize 0%nat.
  induction labels as [|l labels IH]; intros s; simpl; [reflexivity|].
  rewrite IH. reflexivity.
Qed.

Lemma in_enumerate_snd {L : Type} (labels : list L) (kt : nat * L) :
  In kt (enumerate labels) -> In (snd kt) labels.
Proof.
  destruct kt as [k t]. unfold enumerate. intros H.
  apply in_combine_r in H. exact H.
Qed.

(** X9. The counts of the years add up: at every grid cell, the entries
    [xr_count_across_days_of_year] returns for the years of the axis sum to
    the number of timestamps of the whole series whose value is strictly
    above the threshold; no timestamp is counted under two years and none
    is left out. *)
Theorem count_across_days_of_year_total :
  forall (da : DataArray datetime cell) (count_above : R)
         (t0 : datetime) (ts : list datetime),
    outer da = Some ("time"%string, t0 :: ts) ->
    exists out years,
      xr_count_across_days_of_year da count_above = Ok out
      /\ outer out = Some ("time"%string, years)
      /\ forall i j,
           list_sum (map (fun g => values out g i j) (seq 0 (length years)))
           = length (filter (exceeds count_above)
                       (cell_series da (t0 :: ts) i j)).
Proof.
  intros da count_above t0 ts Ht.
  destruct (count_values da count_above t0 ts Ht) as [out [Hout [Ho Hv]]].
  exists out, (unique_sorted (map year (t0 :: ts))).
  split; [exact Hout|]. split; [exact Ho|].
  intros i j.
  rewrite (map_ext_in _
             (fun g => length (filter (exceeds count_above)
                         (spec_values_where
                            (in_year (nth g (unique_sorted (map year (t0 :: ts))) 0%Z))
                            da (t0 :: ts) i j)))).
  2:{ intros g Hg. apply in_seq in Hg. apply Hv. lia. }
  rewrite (map_nth_seq
             (fun y => length (filter (exceeds count_above)
                         (spec_values_where (in_year y) da (t0 :: ts) i j)))).
  unfold spec_values_where, cell_series.
  rewrite <- map_fst_enumerate, map_map.
  rewrite filter_map_swap, length_map.
  rewrite <- (list_sum_by_year (fun kt : nat * datetime => year (snd kt))
                (fun kt => exceeds count_above (values da (fst kt) i j))
                (unique_sorted (map year (t0 :: ts)))
                (enumerate (t0 :: ts))).
  - f_equal. apply map_ext. intros y.
    rewrite filter_map_swap, length_map. reflexivity.
  - apply sorted_lt_NoDup, unique_sorted_sorted.
  - intros kt Hkt. apply unique_sorted_In, in_map, in_enumerate_snd. exact Hkt.
Qed.

Lemma exceeds_Num (threshold v : R) :
  exceeds threshold (Num v) = true <-> v > threshold.
Proof. apply gtb_true_iff. Qed.

Lemma exceeds_not (threshold v : R) :
  v <= threshold -> exceeds threshold (Num v) = false.
Proof. intros H. apply gtb_false_iff. exact H. Qed.

Lemma count_across_days_of_year_total_witness :
  exists out,
    xr_count_across_days_of_year new_year_series 2 = Ok out
    /\ outer out = Some ("time"%string, [1995%Z; 1996%Z])
    /\ (values out 0 0 0 + values out 1 0 0 = 2)%nat.
Proof.
  destruct (count_across_days_of_year_total new_year_series 2
              (mkDatetime 1995 12 30)
              [mkDatetime 1995 12 31; mkDatetime 1996 1 1] eq_refl)
    as [out [years [Hout [Ho Hs]]]].
  assert (E : years = [1995%Z; 1996%Z]).
  { cbn in Hout. injection Hout as <-. cbn in Ho. injection Ho as <-.
    reflexivity. }
  exists out. split; [exact Hout|]. split; [rewrite Ho, E; reflexivity|].
  specialize (Hs 0%nat 0%nat). rewrite E in Hs.
  cbn [length seq map list_sum fold_right] in Hs.
  rewrite Nat.add_0_r in Hs. rewrite Hs.
  change (cell_series new_year_series _ 0 0) with [Num 1; Num 3; Num 5].
  cbn [filter].
  rewrite (exceeds_not 2 1) by lra.
  rewrite (proj2 (exceeds_Num 2 3)) by lra.
  rewrite (proj2 (exceeds_Num 2 5)) by lra.
  reflexivity.
Defined.

Lemma filter_length_le {A : Type} (P Q : A -> bool) (l : list A) :
  (forall a, In a l -> P a = true -> Q a = true) ->
  (length (filter P l) <= length (filter Q l))%nat.
Proof.
  induction l as [|a l IH]; intros H; [reflexivity|].
  assert (IH' : (length (filter P l) <= length (filter Q l))%nat)
    by (apply IH; intros b Hb; apply H; right; exact Hb).
  cbn [filter]. destruct (P a) eqn:EP.
  - rewrite (H a (or_introl eq_refl) EP). simpl. lia.
  - destruct (Q a); simpl; lia.
Qed.

(** X10. Raising the threshold never raises a count: for two thresholds
    [low <= high], every entry [xr_count_across_days_of_year] returns for
    [high] is at most the entry it returns for [low]; the two results have
    the same axis of years. *)
Theorem count_across_days_of_year_antitone :
  forall (da : DataArray datetime cell) (low high : R)
         (t0 : datetime) (ts : list datetime),
    outer da = Some ("time"%string, t0 :: ts) ->
    low <= high ->
    exists out_low out_high years,
      xr_count_across_days_of_year da low = Ok out_low
      /\ xr_count_across_days_of_year da high = Ok out_high
      /\ outer out_low = Some ("time"%string, years)
      /\ outer out_high = Some ("time"%string, years)
      /\ forall g i j, (g < length years)%nat ->
           (values out_high g i j <= values out_low g i j)%nat.
Proof.
  intros da low high t0 ts Ht Hle.
  destruct (count_values da low t0 ts Ht) as [o1 [H1 [Ho1 Hv1]]].
  destruct (count_values da high t0 ts Ht) as [o2 [H2 [Ho2 Hv2]]].
  exists o1, o2, (unique_sorted (map year (t0 :: ts))).
  split; [exact H1|]. split; [exact H2|]. split; [exact Ho1|].
  split; [exact Ho2|].
  intros g i j Hg. rewrite (Hv1 g i j Hg), (Hv2 g i j Hg).
  apply filter_length_le. intros [|v] _ Hv; [discriminate|].
  apply exceeds_Num in Hv. apply exceeds_Num. lra.
Qed.

Lemma count_across_days_of_year_antitone_witness :
  exists out_low out_high,
    xr_count_across_days_of_year new_year_series 2 = Ok out_low
    /\ xr_count_across_days_of_year new_year_series 4 = Ok out_high
    /\ (values out_high 0 0 0 <= values out_low 0 0 0)%nat.
Proof.
  destruct (count_across_days_of_year_antitone new_year_series 2 4
              (mkDatetime 1995 12 30)
              [mkDatetime 1995 12 31; mkDatetime 1996 1 1] eq_refl)
    as [o1 [o2 [years [H1 [H2 [Ho1 [_ Hv]]]]]]].
  - lra.
  - exists o1, o2. split; [exact H1|]. split; [exact H2|].
    apply Hv.
    cbn in H1. injection H1 as <-. cbn in Ho1. injection Ho1 as <-.
    simpl. lia.
Defined.

(** X11. A threshold that no value exceeds gives counts of 0: when every
    value of the field that is not missing is at most the threshold --
    the threshold is the maximum, say -- every entry
    [xr_count_across_days_of_year] returns on the grid is 0. *)
Theorem count_across_days_of_year_none_above :
  forall (da : DataArray datetime cell) (count_above m : R)
         (t0 : datetime) (ts : list datetime),
    outer da = Some ("time"%string, t0 :: ts) ->
    field_within da (t0 :: ts) m count_above ->
    exists out years,
      xr_count_across_days_of_year da count_above = Ok out
      /\ outer out = Some ("time"%string, years)
      /\ forall g i j,
           (g < length years)%nat -> (i < nlat da)%nat -> (j < nlon da)%nat ->
           values out g i j = 0%nat.
Proof.
  intros da count_above m t0 ts Ht Hf.
  destruct (count_values da count_above t0 ts Ht) as [out [Hout [Ho Hv]]].
  exists out, (unique_sorted (map year (t0 :: ts))).
  split; [exact Hout|]. split; [exact Ho|].
  intros g i j Hg Hi Hj. rewrite (Hv g i j Hg).
  rewrite filter_none; [reflexivity|].
  intros [|v] Hin; [reflexivity|].
  apply exceeds_not.
  apply (spec_values_where_within _ da (t0 :: ts) m count_above i j Hf Hi Hj v Hin).
Qed.

Lemma count_across_days_of_year_none_above_witness :
  exists out,
    xr_count_across_days_of_year new_year_series 5 = Ok out
    /\ values out 0 0 0 = 0%nat
    /\ values out 1 0 0 = 0%nat.
Proof.
  destruct (count_across_days_of_year_none_above new_year_series 5 1
              (mkDatetime 1995 12 30)
              [mkDatetime 1995 12 31; mkDatetime 1996 1 1] eq_refl)
    as [out [years [Hout [Ho Hv]]]].
  - intros k i j x Hk _ _ H. cbn in Hk. cbn [new_year_series values] in H.
    destruct k as [|[|[|k]]]; [| | |lia];
      cbn in H; injection H; intros; lra.
  - exists out. split; [exact Hout|].
    assert (E : years = [1995%Z; 1996%Z]).
    { cbn in Hout. injection Hout as <-. cbn in Ho. injection Ho as <-.
      reflexivity. }
    split; apply Hv; try rewrite E; cbn; lia.
Defined.

(* ================================================================== *)
(** * Further properties of [xr_quantiles_across_time_by_cell] *)





















(* ================================================================== *)
(** * Properties of [plot_colored_maps] *)

Lemma maps_loop_run {A : Type} (n : nat) (common_title : string)
    (color_bar_range : R * R) (items : list (string * A)) :
  forall (i : nat) (im : option nat) (fig : list (draw A)),
    (i + length items <= n)%nat ->
    maps_loop (AxesArray n) items common_title color_bar_range i im fig
    = (fig ++ maps_calls common_title color_bar_range i items,
       Done (match items with
             | [] => im
             | _ :: _ => Some (i + length items - 1)%nat
             end)).
Proof.
  induction items as [|[name subda] rest IH]; intros i im fig Hn.
  - cbn [maps_loop maps_calls]. unfold ret. rewrite app_nil_r. reflexivity.
  - cbn [length] in Hn.
    assert (Hi : (i <? n)%nat = true) by (apply Nat.ltb_lt; lia).
    cbn [maps_loop maps_calls]. unfold andthen, getitem, emit, ret.
    rewrite Hi. rewrite IH by lia.
    unfold map_calls. cbn [fst snd length].
    rewrite <- !app_assoc. cbn [app]. f_equal. f_equal.
    destruct rest as [|e rest']; f_equal; cbn [length]; lia.
Qed.

Lemma filter_maps_calls {A : Type} (common_title : string)
    (color_bar_range : R * R) (items : list (string * A)) (i : nat) :
  length (filter is_map (maps_calls common_title color_bar_range i items))
  = length items
  /\ filter is_colorbar (maps_calls common_title color_bar_range i items) = [].
Proof.
  revert i. induction items as [|e rest IH]; intros i; [split; reflexivity|].
  destruct (IH (S i)) as [IH1 IH2].
  cbn [maps_calls map_calls app filter is_map is_colorbar length].
  rewrite IH1, IH2. split; reflexivity.
Qed.

(** X16. Given two maps or more, [plot_colored_maps] returns normally
    after drawing, on a new figure, one map per entry in the order of the
    dictionary -- the [i]-th entry on the [i]-th axes, with coastlines and
    borders, titled ["<common_title> <name>"], and every map on the colour
    range given -- and then a single colour bar, labelled with the units,
    shared by all the axes and coloured as the last map. *)
Theorem plot_colored_maps_draws :
  forall (A : Type) (da : dict (K := string) (V := A))
         (common_title units : string) (color_bar_range : R * R)
         (fig : list (draw A)),
    (2 <= length da)%nat ->
    exists calls,
      plot_colored_maps da common_title units color_bar_range fig
      = (fig ++ calls, Done tt)
      /\ calls
         = NewFigure (6.4 * 3) (4.8 * 3)
           :: maps_calls common_title color_bar_range 0 da
           ++ [Colorbar (length da - 1) (seq 0 (length da)) units]
      /\ length (filter is_map calls) = length da
      /\ length (filter is_colorbar calls) = 1%nat.
Proof.
  intros A da common_title units color_bar_range fig Hn.
  eexists. split; [|split; [reflexivity|]].
  - unfold plot_colored_maps, subplots. unfold andthen at 1 2. unfold emit at 1.
    destruct (length da) as [|[|n]] eqn:E; [lia|lia|].
    unfold ret at 1. unfold andthen at 1.
    rewrite maps_loop_run by (rewrite E; lia).
    destruct da as [|e rest]; [discriminate E|].
    unfold andthen, ravel_tolist, ret, emit.
    rewrite <- E. cbn [fst snd figsize].
    rewrite <- !app_assoc. cbn [app]. reflexivity.
  - destruct (filter_maps_calls common_title color_bar_range da 0) as [H1 H2].
    cbn [filter is_map is_colorbar]. rewrite !filter_app, H2.
    rewrite length_app, H1. cbn. split; [lia|reflexivity].
Qed.

Lemma plot_colored_maps_draws_witness :
  exists calls,
    plot_colored_maps [("A", 10%nat); ("B", 20%nat)]%string "sometitle"
      "someunits" (0, 1) []
    = (calls, Done tt)
    /\ calls
       = [NewFigure (6.4 * 3) (4.8 * 3);
          PlotMap 0 10%nat 0 1; Coastlines 0; Borders 0;
          SetTitle 0 "sometitle A";
          PlotMap 1 20%nat 0 1; Coastlines 1; Borders 1;
          SetTitle 1 "sometitle B";
          Colorbar 1 [0; 1]%nat "someunits"].
Proof.
  destruct (plot_colored_maps_draws nat
              [("A", 10%nat); ("B", 20%nat)]%string
              "sometitle" "someunits" (0, 1) [])
    as [calls [Hrun [Hcalls _]]].
  - simpl. lia.
  - exists calls. split; [exact Hrun|]. rewrite Hcalls. reflexivity.
Defined.

(** X17. With fewer than two maps [plot_colored_maps] fails after creating
    the figure, drawing nothing on it: given one map, the axes it gets back
    are not an array and indexing them is a type error; given none, the
    grid of axes is refused. *)
Theorem plot_colored_maps_too_few :
  forall (A : Type) (da : dict (K := string) (V := A))
         (common_title units : string) (color_bar_range : R * R)
         (fig : list (draw A)),
    (length da < 2)%nat ->
    exists e,
      plot_colored_maps da common_title units color_bar_range fig
      = (fig ++ [NewFigure (6.4 * 3) (4.8 * 3)], Failed e)
      /\ (length da = 1%nat -> e = PlotTypeError)
      /\ (length da = 0%nat -> e = PlotValueError).
Proof.
  intros A da common_title units color_bar_range fig Hn.
  destruct da as [|[name subda] [|e rest]]; [| |simpl in Hn; lia].
  - exists PlotValueError. split; [reflexivity|].
    split; [discriminate|reflexivity].
  - exists PlotTypeError. split; [reflexivity|].
    split; [reflexivity|discriminate].
Qed.

Lemma plot_colored_maps_too_few_witness :
  plot_colored_maps [("A", 10%nat)]%string "sometitle" "someunits" (0, 1) []
  = ([NewFigure (6.4 * 3) (4.8 * 3)], Failed PlotTypeError).
Proof.
  destruct (plot_colored_maps_too_few nat [("A", 10%nat)]%string
              "sometitle" "someunits" (0, 1) [])
    as [e [Hrun [He _]]].
  - simpl. lia.
  - rewrite Hrun, (He eq_refl). reflexivity.
Defined.

(* ================================================================== *)
(** * Properties of [plot_colored_timeseries] *)

Lemma lines_loop_complete {A : Type} (items : list (string * material A)) :
  (forall entry, In entry items -> complete (snd entry)) ->
  forall fig,
    lines_loop items fig = (fig ++ flat_map line_of items, Done tt).
Proof.
  induction items as [|[name m] rest IH]; intros Hc fig.
  - cbn. unfold ret. rewrite app_nil_r. reflexivity.
  - destruct (Hc (name, m) (or_introl eq_refl)) as [H1 [H2 H3]].
    cbn [snd] in *. cbn [lines_loop flat_map].
    unfold line_of. cbn [fst snd].
    destruct (temporal_data m) as [d|]; [|contradiction].
    destruct (linestyle m) as [ls|]; [|contradiction].
    destruct (color m) as [c|]; [|contradiction].
    unfold andthen, lookup, ret, emit.
    rewrite IH by (intros e He; apply Hc; right; exact He).
    rewrite <- app_assoc. reflexivity.
Qed.

Lemma lines_loop_missing {A : Type} (pre post : list (string * material A))
    (name key : string) (m : material A) :
  (forall entry, In entry pre -> complete (snd entry)) ->
  first_missing m = Some key ->
  forall fig,
    lines_loop (pre ++ (name, m) :: post) fig
    = (fig ++ flat_map line_of pre, Failed (PlotKeyError key)).
Proof.
  intros Hc Hm. induction pre as [|[name' m'] pre IH]; intros fig.
  - cbn [app lines_loop flat_map]. rewrite app_nil_r.
    unfold first_missing in Hm. unfold andthen, lookup, ret, fail.
    destruct (temporal_data m); [|injection Hm as <-; reflexivity].
    destruct (linestyle m); [|injection Hm as <-; reflexivity].
    destruct (color m); [discriminate|injection Hm as <-; reflexivity].
  - destruct (Hc (name', m') (or_introl eq_refl)) as [H1 [H2 H3]].
    cbn [snd] in *. cbn [app lines_loop flat_map].
    unfold line_of at 1. cbn [fst snd].
    destruct (temporal_data m') as [d|]; [|contradiction].
    destruct (linestyle m') as [ls|]; [|contradiction].
    destruct (color m') as [c|]; [|contradiction].
    unfold andthen at 1 2 3 4. unfold lookup, ret, emit.
    rewrite IH by (intros e He; apply Hc; right; exact He).
    rewrite <- app_assoc. reflexivity.
Qed.

Lemma filter_lines {A : Type} (items : list (string * material A)) :
  (forall entry, In entry items -> complete (snd entry)) ->
  length (filter is_line (flat_map line_of items)) = length items.
Proof.
  induction items as [|[name m] rest IH]; intros Hc; [reflexivity|].
  destruct (Hc (name, m) (or_introl eq_refl)) as [H1 [H2 H3]].
  cbn [snd] in *. cbn [flat_map]. unfold line_of at 1. cbn [fst snd].
  destruct (temporal_data m); [|contradiction].
  destruct (linestyle m); [|contradiction].
  destruct (color m); [|contradiction].
  cbn [app filter is_line length].
  rewrite IH by (intros e He; apply Hc; right; exact He). reflexivity.
Qed.

(** X18. When every entry has its data, its line style and its colour,
    [plot_colored_timeseries] returns normally after drawing, on a new
    figure, one line per entry in the order of the dictionary, each
    labelled with its name and in its own style and colour, and then the
    legend, the units as the label of the y axis and the title -- also for
    a dictionary without entry, which gives an empty plot with legend, label
    and title. *)
Theorem plot_colored_timeseries_draws :
  forall (A : Type) (da : dict (K := string) (V := material A))
         (title units : string) (fig : list (draw A)),
    (forall entry, In entry da -> complete (snd entry)) ->
    exists calls,
      plot_colored_timeseries da title units fig = (fig ++ calls, Done tt)
      /\ calls
         = NewFigure (6.4 * 3) (4.8 * 3)
           :: flat_map line_of da ++ [Legend; YLabel units; Title title]
      /\ length (filter is_line calls) = length da.
Proof.
  intros A da title units fig Hc.
  eexists. split; [|split; [reflexivity|]].
  - unfold plot_colored_timeseries. unfold andthen at 1 2. unfold emit at 1.
    rewrite lines_loop_complete by exact Hc.
    unfold andthen, emit. cbn [fst snd figsize].
    rewrite <- !app_assoc. cbn [app]. reflexivity.
  - cbn [filter is_line]. rewrite filter_app. cbn [filter is_line].
    rewrite app_nil_r. apply filter_lines. exact Hc.
Qed.

Lemma plot_colored_timeseries_draws_witness :
  exists calls,
    plot_colored_timeseries
      [("A", mkMaterial (Some 10%nat) (Some ":") (Some "blue"));
       ("B", mkMaterial (Some 20%nat) (Some ":") (Some "black"))]%string
      "sometitle" "someunits" []
    = (calls, Done tt)
    /\ calls
       = [NewFigure (6.4 * 3) (4.8 * 3);
          PlotLine "A" 10%nat ":" "blue"; PlotLine "B" 20%nat ":" "black";
          Legend; YLabel "someunits"; Title "sometitle"].
Proof.
  destruct (plot_colored_timeseries_draws nat
              [("A", mkMaterial (Some 10%nat) (Some ":") (Some "blue"));
               ("B", mkMaterial (Some 20%nat) (Some ":") (Some "black"))]%string
              "sometitle" "someunits" [])
    as [calls [Hrun [Hcalls _]]].
  - intros entry [<-|[<-|[]]]; repeat split; discriminate.
  - exists calls. split; [exact Hrun|]. rewrite Hcalls. reflexivity.
Defined.

(** X19. An entry without one of its three keys stops
    [plot_colored_timeseries]: it raises the [KeyError] of the first key
    the entry lacks, in the order ['temporal_data'], ['linestyle'],
    ['color']; the lines of the entries before it are drawn, the entry's
    own line and those after it are not, and the figure gets no legend, no
    label and no title. *)
Theorem plot_colored_timeseries_missing_key :
  forall (A : Type) (pre post : list (string * material A))
         (name key : string) (m : material A) (title units : string)
         (fig : list (draw A)),
    (forall entry, In entry pre -> complete (snd entry)) ->
    first_missing m = Some key ->
    plot_colored_timeseries (pre ++ (name, m) :: post) title units fig
    = (fig ++ NewFigure (6.4 * 3) (4.8 * 3) :: flat_map line_of pre,
       Failed (PlotKeyError key)).
Proof.
  intros A pre post name key m title units fig Hc Hm.
  unfold plot_colored_timeseries. unfold andthen at 1 2. unfold emit at 1.
  rewrite (lines_loop_missing pre post name key m Hc Hm).
  cbn [fst snd figsize]. rewrite <- app_assoc. reflexivity.
Qed.

Lemma plot_colored_timeseries_missing_key_witness :
  plot_colored_timeseries
    [("A", mkMaterial (Some 10%nat) (Some ":") (Some "blue"));
     ("B", mkMaterial (Some 20%nat) None None);
     ("C", mkMaterial (Some 30%nat) (Some ":") (Some "black"))]%string
    "sometitle" "someunits" []
  = ([NewFigure (6.4 * 3) (4.8 * 3); PlotLine "A" 10%nat ":" "blue"],
     Failed (PlotKeyError "linestyle")).
Proof.
  apply (plot_colored_timeseries_missing_key nat
           [("A", mkMaterial (Some 10%nat) (Some ":") (Some "blue"))]%string
           [("C", mkMaterial (Some 30%nat) (Some ":") (Some "black"))]%string
           "B" "linestyle" (mkMaterial (Some 20%nat) None None)
           "sometitle" "someunits" []).
  - intros entry [<-|[]]. repeat split; discriminate.
  - reflexivity.
Defined.

(* ================================================================== *)
(** * The mean of a year, two ways *)

Lemma in_range_same_year (y : Z) (t : datetime) :
  in_range (Y y) (Y y) t = in_year y t.
Proof.
  unfold in_range, in_year. cbn [on_or_after on_or_before].
  destruct (year t =? y)%Z eqn:E.
  - apply Z.eqb_eq in E. rewrite E, Z.leb_refl. reflexivity.
  - apply Z.eqb_neq in E.
    destruct (y <=? year t)%Z eqn:E1; [|reflexivity].
    destruct (year t <=? y)%Z eqn:E2; [|reflexivity].
    apply Z.leb_le in E1. apply Z.leb_le in E2. lia.
Qed.

Lemma spec_values_where_ext {V : Type} (p p' : datetime -> bool)
    (da : DataArray datetime V) (ts : list datetime) (i j : nat) :
  (forall t, p t = p' t) ->
  spec_values_where p da ts i j = spec_values_where p' da ts i j.
Proof.
  intros H. unfold spec_values_where. f_equal.
  apply filter_ext. intros [k t]. apply H.
Qed.

(** X20. The two temporal means agree on a year: on a time axis in
    ascending order, the array [xr_collapse_across_time] returns for the
    range from a year to that same year holds, at every cell, the entry
    [xr_average_across_days_of_year] returns for that year. *)
Theorem collapse_across_time_of_a_year :
  forall (da : DataArray datetime cell) (t0 : datetime) (ts : list datetime)
         (s : string) (y : Z),
    outer da = Some ("time"%string, t0 :: ts) ->
    ascending (t0 :: ts) = true ->
    parse_date s = Some (Y y) ->
    (exists t, In t (t0 :: ts) /\ year t = y) ->
    exists slice_mean year_means years g,
      xr_collapse_across_time da (s, s) = Ok slice_mean
      /\ xr_average_across_days_of_year da = Ok year_means
      /\ outer year_means = Some ("year"%string, years)
      /\ nth_error years g = Some y
      /\ forall k i j, values slice_mean k i j = values year_means g i j.
Proof.
  intros da t0 ts s y Ht Hasc Hs Hy.
  destruct (collapse_across_time_values da (t0 :: ts) s s (Y y) (Y y)
              Ht Hasc Hs Hs)
    as [sm [Hsm [_ [_ [_ Hv1]]]]].
  destruct (average_values da t0 ts Ht) as [ym [Hym [Ho [_ [_ Hv2]]]]].
  apply years_present in Hy.
  destruct (In_nth _ _ 0%Z Hy) as [g [Hg Hnth]].
  exists sm, ym, (unique_sorted (map year (t0 :: ts))), g.
  split; [exact Hsm|]. split; [exact Hym|]. split; [exact Ho|]. split.
  - rewrite <- Hnth. apply nth_error_nth'. exact Hg.
  - intros k i j. rewrite Hv1, (Hv2 g i j Hg), Hnth.
    f_equal. apply spec_values_where_ext. apply in_range_same_year.
Qed.

Lemma collapse_across_time_of_a_year_witness :
  exists slice_mean year_means,
    xr_collapse_across_time new_year_series ("1995", "1995")%string
    = Ok slice_mean
    /\ xr_average_across_days_of_year new_year_series = Ok year_means
    /\ values slice_mean 0 0 0 = values year_means 0 0 0.
Proof.
  destruct (collapse_across_time_of_a_year new_year_series
              (mkDatetime 1995 12 30)
              [mkDatetime 1995 12 31; mkDatetime 1996 1 1] "1995" 1995%Z
              eq_refl eq_refl eq_refl)
    as [sm [ym [years [g [Hsm [Hym [Ho [Hg Hv]]]]]]]].
  - exists (mkDatetime 1995 12 30). split; [left; reflexivity|reflexivity].
  - exists sm, ym. split; [exact Hsm|]. split; [exact Hym|].
    assert (E : years = [1995%Z; 1996%Z]).
    { cbn in Hym. injection Hym as <-. cbn in Ho. injection Ho as <-.
      reflexivity. }
    rewrite E in Hg.
    assert (g = 0%nat).
    { destruct g as [|[|g]]; [reflexivity| |].
      - cbn in Hg. discriminate Hg.
      - cbn in Hg. destruct g; discriminate Hg. }
    subst g. apply Hv.
Defined.
